(** * The Huobi exchange adapter (api/huobi.go)

    A shallow embedding of the adapter: its domain structs, the JSON tree it
    traverses, the collaborators it calls (HTTP transport, JSON decoding,
    signing hash, value formatting), and its public operations written in a
    small state-and-panic monad over the adapter instance, the network trace
    and the log.  The second half states and proves the adapter's properties. *)

From Stdlib Require Import ZArith String Ascii PrimFloat SpecFloat FloatOps.
From stdpp Require Import gmap strings list sorting pretty.

Local Set Warnings "-register-all".
Local Open Scope string_scope.
Local Open Scope Z_scope.
Local Open Scope list_scope.

(** ** Domain structs *)

Definition float64 := float.

(** Account : the account detail. *)
Record Account := {
  Total : float64;
  Net : float64;
  Balance : float64;
  FrozenBalance : float64;
  BTC : float64;
  FrozenBTC : float64;
  LTC : float64;
  FrozenLTC : float64;
  Stock : float64;
  FrozenStock : float64
}.

(** Order : an order of the exchange. *)
Record Order := {
  ID : string;
  Price : float64;
  Amount : float64;
  DealAmount : float64;
  OrderType : Z;
  StockType : string
}.

(** MarketOrder : one level of the book. *)
Record MarketOrder := {
  MarketOrder_Price : float64;
  MarketOrder_Amount : float64
}.

(** Ticker : the market depth with its best prices. *)
Record Ticker := {
  Ticker_Bids : list MarketOrder;
  Ticker_Asks : list MarketOrder;
  Ticker_Buy : float64;
  Ticker_Sell : float64;
  Ticker_Mid : float64
}.

(** Record : one candlestick bar. *)
Record Record := {
  Time : Z;
  Open : float64;
  High : float64;
  Low : float64;
  Close : float64;
  Volume : float64
}.

(** Option : the configuration an adapter is built from. *)
Record Option := {
  Type_ : string;
  AccessKey : string;
  SecretKey : string;
  MainStock : string
}.

(** ** Decoded JSON (go-simplejson) *)

(** A JSON number keeps its literal; the two constructors tell an integer
    literal from one with a fraction or exponent. *)
Inductive Number :=
| NInt (z : Z)
| NFloat (f : float64).

Inductive Json :=
| JNull
| JBool (b : bool)
| JNumber (n : Number)
| JString (s : string)
| JArray (l : list Json)
| JObject (m : gmap string Json).

(** [j.Get(key)]: the member of an object, the nil tree otherwise. *)
Definition Get (key : string) (j : Json) : Json :=
  match j with
  | JObject m => default JNull (m !! key)
  | _ => JNull
  end.

(** [j.GetIndex(i)]: the element of an array, the nil tree otherwise. *)
Definition GetIndex (i : nat) (j : Json) : Json :=
  match j with
  | JArray l => default JNull (l !! i)
  | _ => JNull
  end.

(** [j.MustArray()]: the elements of an array, no elements otherwise. *)
Definition MustArray (j : Json) : list Json :=
  match j with
  | JArray l => l
  | _ => []
  end.

(** [j.MustString(def)]: the string, [def] for anything else. *)
Definition MustString (j : Json) (def : string) : string :=
  match j with
  | JString s => s
  | _ => def
  end.

(** The float64 nearest to an integer literal, as the decoder parses it; a
    literal beyond the float64 range does not parse. *)
Definition floatOfZ (z : Z) : option float64 :=
  let f := SF2Prim (binary_normalize prec emax z 0 false) in
  if PrimFloat.is_infinity f then None else Some f.

(** [j.MustFloat64()]: the number as a float64, zero for anything else. *)
Definition MustFloat64 (j : Json) : float64 :=
  match j with
  | JNumber (NFloat f) => f
  | JNumber (NInt z) => default 0%float (floatOfZ z)
  | _ => 0%float
  end.

(** [j.Interface()]: the raw value under the tree. *)
Definition Interface (j : Json) : Json := j.

(** ** Numeric conversion (miaolz123/conver) *)

Definition digitOf (c : ascii) : option Z :=
  let n := Z.of_N (N_of_ascii c) in
  if (48 <=? n) && (n <=? 57) then Some (n - 48) else None.

Fixpoint digitsOf (acc : Z) (s : string) : option Z :=
  match s with
  | EmptyString => Some acc
  | String c s' =>
      match digitOf c with
      | Some d => digitsOf (10 * acc + d) s'
      | None => None
      end
  end.

Definition inInt64 (z : Z) : bool := (- 2 ^ 63 <=? z) && (z <? 2 ^ 63).

(** A base-10 integer with an optional sign, inside the int64 range. *)
Definition parseInt64 (s : string) : option Z :=
  let unsigned (t : string) :=
    match t with
    | EmptyString => None
    | _ => digitsOf 0 t
    end in
  let v :=
    match s with
    | String "-"%char t => Z.opp <$> unsigned t
    | String "+"%char t => unsigned t
    | _ => unsigned s
    end in
  v ≫= λ z, if inInt64 z then Some z else None.

(** The leading digits of a string: their value on top of [acc], their
    number on top of [n], and what follows them. *)
Fixpoint spanDigits (acc : Z) (n : nat) (s : string) : Z * nat * string :=
  match s with
  | EmptyString => (acc, n, EmptyString)
  | String c s' =>
      match digitOf c with
      | Some d => spanDigits (10 * acc + d) (S n) s'
      | None => (acc, n, s)
      end
  end.

(** A decimal number [sign digits . digits e exponent], every part but one
    digit optional, as a sign, a whole mantissa and a power of ten. *)
Definition parseDecimal (s : string) : option (bool * Z * Z) :=
  let '(negative, s) :=
    match s with
    | String "-"%char t => (true, t)
    | String "+"%char t => (false, t)
    | _ => (false, s)
    end in
  let '(whole, nWhole, s) := spanDigits 0 0 s in
  let '(mantissa, nFraction, s) :=
    match s with
    | String "."%char t => spanDigits whole 0 t
    | _ => (whole, O, s)
    end in
  if (nWhole + nFraction =? 0)%nat then None
  else
    match s with
    | EmptyString => Some (negative, mantissa, - Z.of_nat nFraction)
    | String c t =>
        if (Ascii.eqb c "e" || Ascii.eqb c "E")%bool then
          (λ x, (negative, mantissa, x - Z.of_nat nFraction)) <$> parseInt64 t
        else None
    end.

(** The float64 nearest to [mantissa * 10 ^ power]: for a negative power the
    quotient is taken with 64 bits to spare and a sticky bit, so that it is
    rounded once. *)
Definition floatOfDecimal (negative : bool) (mantissa power : Z)
    : option float64 :=
  let signed (m : Z) := if negative then - m else m in
  let spec :=
    if mantissa =? 0 then S754_zero negative
    else if 0 <=? power then
      binary_normalize prec emax (signed (mantissa * 10 ^ power)) 0 false
    else
      let shift := 64 + 4 * (- power) in
      let scaled := mantissa * 2 ^ shift in
      let sticky := if scaled mod 10 ^ (- power) =? 0 then 0 else 1 in
      binary_normalize prec emax
        (signed (2 * (scaled / 10 ^ (- power)) + sticky)) (- (shift + 1)) false in
  let f := SF2Prim spec in
  if PrimFloat.is_infinity f then None else Some f.

(** The integer part of a float64, zero for an infinity or a NaN. *)
Definition truncateFloat (f : float64) : Z :=
  match Prim2SF f with
  | S754_finite negative m e =>
      let magnitude :=
        if 0 <=? e then Z.pos m * 2 ^ e else Z.pos m / 2 ^ (- e) in
      if negative then - magnitude else magnitude
  | _ => 0
  end.

(** Modelled from the spec: [conver.Int64Must], one of the numeric string
    conversion utilities the adapter consumes, is not in the source.  It
    reads a string as a base-10 integer, and as zero when the string is not
    one or does not fit the int64. *)
Definition Int64Must (s : string) : Z := default 0 (parseInt64 s).

(** Modelled from the spec: [conver.IntMust], one of the numeric string
    conversion utilities the adapter consumes, is not in the source.  It is
    a best-effort coercion to the 64-bit int with zero as its default: an
    integer literal or a string of digits reads as its value, a literal with
    a fraction as its integer part, and what cannot be coerced or does not
    fit as zero. *)
Definition IntMust (v : Json) : Z :=
  match v with
  | JNumber (NInt z) => if inInt64 z then z else 0
  | JNumber (NFloat f) =>
      if inInt64 (truncateFloat f) then truncateFloat f else 0
  | JString s => Int64Must s
  | _ => 0
  end.

(** Modelled from the spec: [conver.Float64Must], one of the numeric string
    conversion utilities the adapter consumes, is not in the source.  It is
    a best-effort numeric coercion with zero as its default: a number reads
    as its float64, a string that spells a decimal number as the float64
    nearest to it, and what cannot be coerced as zero. *)
Definition Float64Must (v : Json) : float64 :=
  match v with
  | JString s =>
      match parseDecimal s with
      | Some (negative, mantissa, power) =>
          default 0%float (floatOfDecimal negative mantissa power)
      | None => 0%float
      end
  | _ => MustFloat64 v
  end.

(** ** The adapter instance and the world around it *)

Definition error := string.
Definition bytes := string.

Inductive result (A : Type) :=
| Success (a : A)
| Failure (err : error).
Arguments Success {A} a.
Arguments Failure {A} err.

(** Huobi : the exchange struct. *)
Record Huobi := {
  stockMap : gmap string string;
  orderTypeMap : gmap string Z;
  periodMap : gmap string string;
  records : gmap string (list Record);
  host : string;
  option_ : Option
}.

(** A value passed as [interface{}] to the logger. *)
Inductive Any :=
| AString (s : string)
| AError (err : error)
| AJson (j : Json).

(** One call of [e.log.Do(kind, price, amount, msgs...)]. *)
Record LogEntry := {
  logKind : string;
  logPrice : float64;
  logAmount : float64;
  logMsgs : list Any
}.

(** One call of the HTTP transport. *)
Inductive Request :=
| GET (url : string)
| POST (url : string) (params : list string).

Record World := {
  self : Huobi;
  wire : list Request;
  journal : list LogEntry;
  console : list string;
  unixNow : Z
}.

(** The collaborators the adapter consumes: the HTTP transport ([get],
    [post]), the JSON decoder, the signing hash of the package, and the
    formatting of values by [fmt]. *)
Class Collaborators := {
  get : string → result bytes;
  post : string → list string → result bytes;
  NewJson : bytes → result Json;
  signMd5 : list string → string;
  sprintFloat : float64 → string;
  sprintValue : Json → string;
  sprintOrder : Order → string
}.

(** ** The monad of an operation: state, and a panic that keeps the state *)

Inductive Outcome (A : Type) :=
| Returned (a : A)
| Panicked (msg : string).
Arguments Returned {A} a.
Arguments Panicked {A} msg.

Definition M (A : Type) : Type := World → Outcome A * World.

Definition ret {A} (a : A) : M A := λ w, (Returned a, w).

Definition bind {A B} (m : M A) (k : A → M B) : M B :=
  λ w, match m w with
       | (Returned a, w') => k a w'
       | (Panicked msg, w') => (Panicked msg, w')
       end.

Notation "'let*' x ':=' m 'in' k" := (bind m (λ x, k))
  (at level 10, x name, m at level 100, k at level 200).

Definition panic {A} (msg : string) : M A := λ w, (Panicked msg, w).

Definition readSelf : M Huobi := λ w, (Returned (self w), w).

Definition writeSelf (e : Huobi) : M unit :=
  λ w, (Returned (),
        {| self := e; wire := wire w; journal := journal w;
           console := console w; unixNow := unixNow w |}).

Definition timeNowUnix : M Z := λ w, (Returned (unixNow w), w).

Definition logDo (kind : string) (price amount : float64) (msgs : list Any) : M unit :=
  λ w, (Returned (),
        {| self := self w; wire := wire w;
           journal := journal w ++
             [{| logKind := kind; logPrice := price; logAmount := amount;
                 logMsgs := msgs |}];
           console := console w; unixNow := unixNow w |}).

Arguments logDo kind (price amount)%_float msgs.

Definition println (line : string) : M unit :=
  λ w, (Returned (),
        {| self := self w; wire := wire w; journal := journal w;
           console := console w ++ [line]; unixNow := unixNow w |}).

Definition send (r : Request) : M unit :=
  λ w, (Returned (),
        {| self := self w; wire := wire w ++ [r]; journal := journal w;
           console := console w; unixNow := unixNow w |}).

Definition setRecords (rs : gmap string (list Record)) (e : Huobi) : Huobi :=
  {| stockMap := stockMap e; orderTypeMap := orderTypeMap e;
     periodMap := periodMap e; records := rs; host := host e;
     option_ := option_ e |}.

Definition setOption (o : Option) (e : Huobi) : Huobi :=
  {| stockMap := stockMap e; orderTypeMap := orderTypeMap e;
     periodMap := periodMap e; records := records e; host := host e;
     option_ := o |}.

Definition setMainStock (stock : string) (o : Option) : Option :=
  {| Type_ := Type_ o; AccessKey := AccessKey o; SecretKey := SecretKey o;
     MainStock := stock |}.

(** Reading a Go map at a missing key gives the zero value. *)
Definition stockCode (e : Huobi) (stockType : string) : string :=
  default "" (stockMap e !! stockType).

Definition periodCode (e : Huobi) (period : string) : string :=
  default "" (periodMap e !! period).

Definition orderTypeCode (e : Huobi) (vendor : string) : Z :=
  default 0 (orderTypeMap e !! vendor).

(** [e.records[period]]: the window of a timeframe, empty when never set. *)
Definition window (e : Huobi) (period : string) : list Record :=
  default [] (records e !! period).

(** NewHuobi : create an exchange struct. *)
Definition NewHuobi (opt : Option) : Huobi :=
  let e :=
    {| stockMap := {[ "BTC" := "1"; "LTC" := "2" ]};
       orderTypeMap := {[ "1" := 1; "2" := -1; "3" := 2; "4" := -2 ]};
       periodMap := {[ "M" := "001"; "M5" := "005"; "M15" := "015";
                       "M30" := "030"; "H" := "060"; "D" := "100";
                       "W" := "200" ]};
       records := ∅;
       host := "https://api.huobi.com/apiv3";
       option_ := opt |} in
  match stockMap e !! MainStock opt with
  | Some _ => e
  | None => setOption (setMainStock "BTC" opt) e
  end.

(** GetMainStock : get the MainStock of this exchange. *)
Definition GetMainStock : M string :=
  let* e := readSelf in ret (MainStock (option_ e)).

(** SetMainStock : set the MainStock of this exchange. *)
Definition SetMainStock (stock : string) : M string :=
  let* e := readSelf in
  match stockMap e !! stock with
  | Some _ =>
      let* _ := writeSelf (setOption (setMainStock stock (option_ e)) e) in
      let* e' := readSelf in ret (MainStock (option_ e'))
  | None => ret (MainStock (option_ e))
  end.

(** ** Strings *)

(** [sort.Strings] orders byte-wise; equal strings are identical, so the
    sorted slice does not depend on the algorithm. *)
Definition strLe (a b : string) : Prop := String.leb a b = true.

Global Instance strLe_dec a b : Decision (strLe a b).
Proof. unfold strLe. apply _. Defined.

Definition sortStrings (l : list string) : list string := merge_sort strLe l.

Definition lowerAscii (c : ascii) : ascii :=
  let n := N_of_ascii c in
  if ((65 <=? n) && (n <=? 90))%N then ascii_of_N (n + 32) else c.

(** [strings.ToLower] on the ASCII letters. *)
Fixpoint ToLower (s : string) : string :=
  match s with
  | EmptyString => EmptyString
  | String c s' => String (lowerAscii c) (ToLower s')
  end.

(** [fmt.Sprint] of an integer. *)
Definition sprintInt (z : Z) : string := pretty z.

Section Adapter.
Context `{Collaborators}.

(** ** Transport *)

Definition httpGet (url : string) : M (result bytes) :=
  let* _ := send (GET url) in ret (get url).

Definition httpPost (url : string) (params : list string) : M (result bytes) :=
  let* _ := send (POST url params) in ret (post url params).

(** ** The request signer *)

(** The parameter list [getAuthJSON] posts, before the optionals. *)
Definition signedParams (accessKey secretKey : string) (created : Z)
    (params : list string) : list string :=
  let params := params ++ ["access_key=" +:+ accessKey;
                           "secret_key=" +:+ secretKey;
                           "created=" +:+ sprintInt created] in
  let params := sortStrings params in
  params ++ ["sign=" +:+ signMd5 params].

Definition getAuthJSON (url : string) (params optionals : list string)
    : M (result Json) :=
  let* e := readSelf in
  let* created := timeNowUnix in
  let params :=
    signedParams (AccessKey (option_ e)) (SecretKey (option_ e)) created params in
  let* resp := httpPost url (params ++ optionals) in
  match resp with
  | Failure err => ret (Failure err)
  | Success body => ret (NewJson body)
  end.

(** The status code of a vendor response. *)
Definition codeOf (json : Json) : Z := IntMust (Interface (Get "code" json)).

(** ** Account and orders *)

(** GetAccount : get the account detail of this exchange. *)
Definition GetAccount : M (option Account) :=
  let* e := readSelf in
  let params := ["method=get_account_info"] in
  let* r := getAuthJSON (host e) params ["market=cny"] in
  match r with
  | Failure err =>
      let* _ := logDo "error" 0 0 [AString "GetAccount() error, "; AError err] in
      ret None
  | Success json =>
      let code := codeOf json in
      if 0 <? code then
        let err := "GetAccount() error, the error number is " +:+ sprintInt code in
        let* _ := logDo "error" 0 0 [AError err] in
        ret None
      else
        let field (key : string) := Float64Must (Interface (Get key json)) in
        let total := field "total" in
        let net := field "net_asset" in
        let balance := field "available_cny_display" in
        let frozenBalance := field "frozen_cny_display" in
        let btc := field "available_btc_display" in
        let frozenBTC := field "frozen_btc_display" in
        let ltc := field "available_ltc_display" in
        let frozenLTC := field "frozen_ltc_display" in
        let '(stock, frozenStock) :=
          if String.eqb (MainStock (option_ e)) "BTC" then (btc, frozenBTC)
          else if String.eqb (MainStock (option_ e)) "LTC" then (ltc, frozenLTC)
          else (0%float, 0%float) in
        ret (Some {| Total := total; Net := net; Balance := balance;
                     FrozenBalance := frozenBalance; BTC := btc;
                     FrozenBTC := frozenBTC; LTC := ltc; FrozenLTC := frozenLTC;
                     Stock := stock; FrozenStock := frozenStock |})
  end.

(** The body shared by Buy and Sell, which differ in their names only. *)
Definition trade (name kind limitMethod marketMethod : string)
    (stockType : string) (price amount : float64) (msgs : list Any) : M string :=
  let* e := readSelf in
  match stockMap e !! stockType with
  | None =>
      let* _ := logDo "error" 0 0
        [AString (name +:+ "() error, unrecognized stockType: "); AString stockType] in
      ret ""
  | Some _ =>
      let params := ["coin_type=" +:+ stockCode e stockType;
                     "amount=" +:+ sprintFloat amount] in
      let limit := PrimFloat.ltb 0%float price in
      let methodParam := if limit then limitMethod else marketMethod in
      let params :=
        if limit then params ++ ["price=" +:+ sprintFloat price] else params in
      let params := params ++ [methodParam] in
      let* r := getAuthJSON (host e) params ["market=cny"] in
      match r with
      | Failure err =>
          let* _ := logDo "error" 0 0 [AString (name +:+ "() error, "); AError err] in
          ret ""
      | Success json =>
          let code := codeOf json in
          if 0 <? code then
            let err := name +:+ "() error, the error number is " +:+ sprintInt code in
            let* _ := logDo "error" 0 0 [AError err] in
            ret ""
          else
            let* _ := logDo kind price amount msgs in
            ret (sprintValue (Interface (Get "id" json)))
      end
  end.

(** Buy : buy stocks. *)
Definition Buy (stockType : string) (price amount : float64) (msgs : list Any)
    : M string :=
  trade "Buy" "buy" "method=buy" "method=buy_market" stockType price amount msgs.

(** Sell : sell stocks. *)
Definition Sell (stockType : string) (price amount : float64) (msgs : list Any)
    : M string :=
  trade "Sell" "sell" "method=sell" "method=sell_market" stockType price amount msgs.

(** The Order built from one order object of the vendor. *)
Definition orderOf (e : Huobi) (stockType : string) (orderJSON : Json) : Order :=
  {| ID := sprintValue (Interface (Get "id" orderJSON));
     Price := MustFloat64 (Get "order_price" orderJSON);
     Amount := MustFloat64 (Get "order_amount" orderJSON);
     DealAmount := MustFloat64 (Get "processed_amount" orderJSON);
     OrderType := orderTypeCode e (MustString (Get "type" orderJSON) "");
     StockType := stockType |}.

(** GetOrder : get details of an order. *)
Definition GetOrder (stockType id : string) : M (option Order) :=
  let* e := readSelf in
  let params := ["method=order_info";
                 "coin_type=" +:+ stockCode e stockType;
                 "id=" +:+ id] in
  let* r := getAuthJSON (host e) params ["market=cny"] in
  match r with
  | Failure err =>
      let* _ := logDo "error" 0 0 [AString "GetOrders() error, "; AError err] in
      ret None
  | Success json =>
      let code := codeOf json in
      if 0 <? code then
        let err := "GetOrders() error, the error number is " +:+ sprintInt code in
        let* _ := logDo "error" 0 0 [AError err] in
        ret None
      else ret (Some (orderOf e stockType json))
  end.

(** CancelOrder : cancel an order. *)
Definition CancelOrder (order : Order) : M bool :=
  let* e := readSelf in
  let params := ["method=cancel_order";
                 "coin_type=" +:+ stockCode e (StockType order);
                 "id=" +:+ ID order] in
  let* r := getAuthJSON (host e) params ["market=cny"] in
  match r with
  | Failure err =>
      let* _ := logDo "error" 0 0 [AString "CancelOrder() error, "; AError err] in
      ret false
  | Success json =>
      let code := codeOf json in
      if 0 <? code then
        let err := "CancelOrder() error, the error number is " +:+ sprintInt code in
        let* _ := logDo "error" 0 0 [AError err] in
        ret false
      else if String.eqb (MustString (Get "result" json) "") "success" then
        let* _ := logDo "cancel" 0 0 [AString (sprintOrder order)] in
        ret true
      else
        let* _ := logDo "error" 0 0
          [AString "CancelOrder() error, "; AJson (Interface (Get "msg" json))] in
        ret false
  end.

(** The body shared by GetOrders and GetTrades, which differ in the method,
    the path and their names only. *)
Definition listOrders (name method path : string) (stockType : string)
    : M (list Order) :=
  let* e := readSelf in
  match stockMap e !! stockType with
  | None =>
      let* _ := logDo "error" 0 0
        [AString (name +:+ "() error, unrecognized stockType: "); AString stockType] in
      ret []
  | Some _ =>
      let params := [method; "coin_type=" +:+ stockCode e stockType] in
      let* r := getAuthJSON (host e +:+ path) params [] in
      match r with
      | Failure err =>
          let* _ := logDo "error" 0 0 [AString (name +:+ "() error, "); AError err] in
          ret []
      | Success json =>
          let code := codeOf json in
          if 0 <? code then
            let err := name +:+ "() error, the error number is " +:+ sprintInt code in
            let* _ := logDo "error" 0 0 [AError err] in
            ret []
          else
            let count := length (MustArray json) in
            ret ((λ i, orderOf e stockType (GetIndex i json)) <$> seq 0 count)
      end
  end.

(** GetOrders : get all unfilled orders. *)
Definition GetOrders (stockType : string) : M (list Order) :=
  listOrders "GetOrders" "method=get_orders" "order_info.do" stockType.

(** GetTrades : get all filled orders recently. *)
Definition GetTrades (stockType : string) : M (list Order) :=
  listOrders "GetTrades" "method=get_new_deal_orders" "order_history.do" stockType.

(** ** Ticker *)

(** The depth size GetTicker asks for. *)
Definition tickerSize (sizes : list Z) : Z :=
  match sizes with
  | s :: _ => if 20 <? s then s else 20
  | [] => 20
  end.

Definition tickerURL (stockType : string) (size : Z) : string :=
  "http://api.huobi.com/staticmarket/depth_" +:+ ToLower stockType +:+ "_"
    +:+ sprintInt size +:+ ".js".

(** One side of the book: the loop over [depthsJSON.MustArray()]. *)
Definition marketOrders (depthsJSON : Json) : list MarketOrder :=
  (λ i, let depthJSON := GetIndex i depthsJSON in
        {| MarketOrder_Price := MustFloat64 (GetIndex 0 depthJSON);
           MarketOrder_Amount := MustFloat64 (GetIndex 1 depthJSON) |})
    <$> seq 0 (length (MustArray depthsJSON)).

(** GetTicker : get market ticker & depth. *)
Definition GetTicker (stockType : string) (sizes : list Z) : M (option Ticker) :=
  let* e := readSelf in
  match stockMap e !! stockType with
  | None =>
      let* _ := logDo "error" 0 0
        [AString "GetTicker() error, unrecognized stockType: "; AString stockType] in
      ret None
  | Some _ =>
      let size := tickerSize sizes in
      let* resp := httpGet (tickerURL stockType size) in
      match resp with
      | Failure err =>
          let* _ := logDo "error" 0 0 [AString "GetTicker() error, "; AError err] in
          ret None
      | Success body =>
          match NewJson body with
          | Failure err =>
              let* _ := logDo "error" 0 0 [AString "GetTicker() error, "; AError err] in
              ret None
          | Success json =>
              let bids := marketOrders (Get "bids" json) in
              let asks := marketOrders (Get "asks" json) in
              match bids, asks with
              | bid :: _, ask :: _ =>
                  let buy := MarketOrder_Price bid in
                  let sell := MarketOrder_Price ask in
                  ret (Some {| Ticker_Bids := bids; Ticker_Asks := asks;
                               Ticker_Buy := buy; Ticker_Sell := sell;
                               Ticker_Mid := ((buy + sell) / 2)%float |})
              | _, _ =>
                  let* _ := logDo "error" 0 0
                    [AString "GetTicker() error, can not get enough Bids or Asks"] in
                  ret None
              end
          end
      end
  end.

(** ** Candlestick records *)

(** The timestamp of one fetched bar: the first 12 bytes of its datetime
    string, as an integer.  [None] is the panic of slicing a shorter
    string. *)
Definition recordTime (recordJSON : Json) : option Z :=
  let s := MustString (GetIndex 0 recordJSON) "19700101000000000" in
  if decide (12 ≤ String.length s)%nat
  then Some (Int64Must (substring 0 12 s))
  else None.

Definition recordOf (recordTime : Z) (recordJSON : Json) : Record :=
  {| Time := recordTime;
     Open := MustFloat64 (GetIndex 1 recordJSON);
     High := MustFloat64 (GetIndex 2 recordJSON);
     Low := MustFloat64 (GetIndex 3 recordJSON);
     Close := MustFloat64 (GetIndex 4 recordJSON);
     Volume := MustFloat64 (GetIndex 5 recordJSON) |}.

(** [timeLast]: zero, or the time of the last bar of the window. *)
Definition timeLastOf (win : list Record) : Z :=
  match last win with
  | Some r => Time r
  | None => 0
  end.

(** The loop [for i := len(json.MustArray()); i > 0; i--] of GetRecords, run
    from [i] on the window [win] of the period and on [recordsNew].  It gives
    the window as the loop leaves it, and [recordsNew] or the panic that
    stopped it. *)
Fixpoint mergeLoop (json : Json) (i : nat) (timeLast : Z)
    (win recordsNew : list Record) : list Record * Outcome (list Record) :=
  match i with
  | O => (win, Returned recordsNew)
  | S i' =>
      let recordJSON := GetIndex i' json in
      match recordTime recordJSON with
      | None => (win, Panicked "slice bounds out of range")
      | Some t =>
          if timeLast <? t then
            mergeLoop json i' timeLast win (recordsNew ++ [recordOf t recordJSON])
          else if t =? timeLast then
            match win with
            | [] => (win, Panicked "index out of range [-1]")
            | _ =>
                mergeLoop json i' timeLast
                  (<[(length win - 1)%nat := recordOf t recordJSON]> win)
                  recordsNew
            end
          else (win, Returned recordsNew)
      end
  end.

Definition recordsURL (e : Huobi) (stockType period : string) : string :=
  "http://api.huobi.com/staticmarket/" +:+ ToLower stockType +:+ "_kline_"
    +:+ periodCode e period +:+ "_json.js".

(** The size GetRecords cuts the window to. *)
Definition recordsSize (sizes : list Z) : Z :=
  match sizes with
  | s :: _ => s
  | [] => 200
  end.

(** Lines 367 to 402 of GetRecords: the merge of the decoded response into
    the window of [period], and the cut to [size].  An assignment to the last
    element of the window writes through the slice the map holds, so it
    alters the entry in place. *)
Definition reconcile (period : string) (json : Json) (size : Z)
    : M (list Record) :=
  let* e := readSelf in
  let timeLast := timeLastOf (window e period) in
  let '(win, looped) :=
    mergeLoop json (length (MustArray json)) timeLast (window e period) [] in
  let* _ := writeSelf (setRecords (alter (λ _, win) period (records e)) e) in
  match looped with
  | Panicked msg => panic msg
  | Returned recordsNew =>
      let* e := readSelf in
      let merged := window e period ++ recordsNew in
      let* _ := writeSelf (setRecords (<[period := merged]> (records e)) e) in
      let* _ :=
        if size <? Z.of_nat (length merged) then
          if size <? 0 then panic "slice bounds out of range"
          else
            let* e := readSelf in
            writeSelf
              (setRecords (<[period := take (Z.to_nat size) merged]> (records e)) e)
        else ret () in
      let* e := readSelf in
      let* _ := println (sprintInt (Z.of_nat (length (window e period)))) in
      ret (window e period)
  end.

(** GetRecords : get candlestick data. *)
Definition GetRecords (stockType period : string) (sizes : list Z)
    : M (list Record) :=
  let* e := readSelf in
  match stockMap e !! stockType with
  | None =>
      let* _ := logDo "error" 0 0
        [AString "GetRecords() error, unrecognized stockType: "; AString stockType] in
      ret []
  | Some _ =>
      match periodMap e !! period with
      | None =>
          let* _ := logDo "error" 0 0
            [AString "GetRecords() error, unrecognized period: "; AString period] in
          ret []
      | Some _ =>
          let size := recordsSize sizes in
          let* resp := httpGet (recordsURL e stockType period) in
          match resp with
          | Failure err =>
              let* _ := logDo "error" 0 0 [AString "GetRecords() error, "; AError err] in
              ret []
          | Success body =>
              match NewJson body with
              | Failure err =>
                  let* _ := logDo "error" 0 0
                    [AString "GetRecords() error, "; AError err] in
                  ret []
              | Success json => reconcile period json size
              end
          end
      end
  end.

End Adapter.

(** The world in which [reconcile] runs: the one GET has been sent. *)
Definition fetched (e : Huobi) (stockType period : string) (w : World) : World :=
  (send (GET (recordsURL e stockType period)) w).2.

(** One fetched bar as the loop decodes it; [None] when reading its time
    panics. *)
Definition decoded (recordJSON : Json) : option Record :=
  (λ t, recordOf t recordJSON) <$> recordTime recordJSON.

(** ** The invariant of a window *)

(** The bars of a window in strictly increasing time. *)
Definition chronological (win : list Record) : Prop :=
  StronglySorted Z.lt (Time <$> win).

(** A fetched array whose bars newer than [timeLast] come newest first: of
    two bars that decode to a time after [timeLast], the later one in the
    array is strictly older. *)
Definition newestFirstAbove (timeLast : Z) (l : list Json) : Prop :=
  ∀ (a b : nat) ja jb ta tb,
    (a < b)%nat → l !! a = Some ja → l !! b = Some jb →
    recordTime ja = Some ta → recordTime jb = Some tb →
    timeLast < ta → timeLast < tb → tb < ta.

(** The world after the one POST of an authenticated operation. *)
Definition posted (url : string) (params : list string) (w : World) : World :=
  (send (POST url params) w).2.

(** An operation that gave up: it returned its zero value and reported one
    error to the log. *)
Definition failed {A} (zero : A) (res : Outcome A * World) (w : World) : Prop :=
  res.1 = Returned zero ∧
  ∃ msgs, journal res.2 =
          journal w ++ [{| logKind := "error"; logPrice := 0%float;
                           logAmount := 0%float;
                           logMsgs := msgs |}].

(** Log : print something to console. *)
Definition Log (msgs : list Any) : M unit := logDo "info" 0 0 msgs.

(** ** What an operation may touch *)

(** The main stock of the adapter is one of the symbols it supports. *)
Definition mainStockSupported (e : Huobi) : Prop :=
  is_Some (stockMap e !! MainStock (option_ e)).

(** Two adapters with the same code tables, host and configuration: they
    differ in their record windows at most. *)
Definition sameSettings (e e' : Huobi) : Prop :=
  stockMap e' = stockMap e ∧ orderTypeMap e' = orderTypeMap e ∧
  periodMap e' = periodMap e ∧ host e' = host e ∧ option_ e' = option_ e.

(** A run that returned, left the adapter, the console and the clock alone,
    and sent at most one request. *)
Definition keepsAdapter {A} (res : Outcome A * World) (w : World) : Prop :=
  (∃ a, res.1 = Returned a) ∧
  self res.2 = self w ∧ console res.2 = console w ∧ unixNow res.2 = unixNow w ∧
  (wire res.2 = wire w ∨ ∃ r, wire res.2 = wire w ++ [r]).

(** The unsigned parameters of Buy and Sell: a limit order when the price is
    strictly positive, a market order without price otherwise. *)
Definition tradeParams `{Collaborators} (coin limitMethod marketMethod : string)
    (price amount : float64) : list string :=
  if PrimFloat.ltb 0%float price
  then ["coin_type=" +:+ coin; "amount=" +:+ sprintFloat amount;
        "price=" +:+ sprintFloat price; limitMethod]
  else ["coin_type=" +:+ coin; "amount=" +:+ sprintFloat amount; marketMethod].

(** The signed parameters of an authenticated request in the world [w]. *)
Definition signedFor `{Collaborators} (w : World) (params : list string)
    : list string :=
  signedParams (AccessKey (option_ (self w))) (SecretKey (option_ (self w)))
    (unixNow w) params.

(** The vendor's answer to an authenticated request, decoded. *)
Definition authReply `{Collaborators} (url : string)
    (params optionals : list string) (w : World) : result Json :=
  match post url (signedFor w params ++ optionals) with
  | Failure err => Failure err
  | Success body => NewJson body
  end.

(** ** Scenarios *)

(** Collaborators that answer every request with the decoded tree [json]. *)
Definition replying (json : Json) : Collaborators :=
  {| get := λ _, Success "";
     post := λ _ _, Success "";
     NewJson := λ _, Success json;
     signMd5 := String.concat "&";
     sprintFloat := λ _, "";
     sprintValue := λ v, match v with
                         | JString s => s
                         | JNumber (NInt z) => sprintInt z
                         | _ => ""
                         end;
     sprintOrder := ID |}.

(** A world around the adapter [e] in which nothing has happened yet. *)
Definition startWorld (e : Huobi) (now : Z) : World :=
  {| self := e; wire := []; journal := []; console := []; unixNow := now |}.

(** The adapter [e] holding the window [win] for [period]. *)
Definition withWindow (period : string) (win : list Record) (e : Huobi) : Huobi :=
  setRecords (<[period := win]> (records e)) e.

(** One bar of the vendor's kline array. *)
Definition bar (stamp : string) (o h l c v : float64) : Json :=
  JArray [JString stamp; JNumber (NFloat o); JNumber (NFloat h);
          JNumber (NFloat l); JNumber (NFloat c); JNumber (NFloat v)].

Arguments bar stamp (o h l c v)%_float.

Definition candle (t : Z) (o h l c v : float64) : Record :=
  {| Time := t; Open := o; High := h; Low := l; Close := c; Volume := v |}.

Arguments candle t (o h l c v)%_float.

Definition demoOption : Option :=
  {| Type_ := "huobi"; AccessKey := "ak"; SecretKey := "sk"; MainStock := "BTC" |}.

Definition demoHuobi : Huobi := NewHuobi demoOption.

(** The bars of the scenarios: the window holds [candle1] and [candle2]; the
    vendor sends the same first bar, a revised second bar and a new third
    one. *)
Definition candle1 : Record := candle 1 10 11 9 10 100.
Definition candle2 : Record := candle 2 20 21 19 20 200.
Definition candle2rev : Record := candle 2 20 25 19 24 260.
Definition candle3 : Record := candle 3 30 31 29 30 300.
Definition candle4 : Record := candle 4 40 41 39 40 400.

Definition bar1 : Json := bar "000000000001" 10 11 9 10 100.
Definition bar2 : Json := bar "000000000002" 20 21 19 20 200.
Definition bar2rev : Json := bar "000000000002" 20 25 19 24 260.
Definition bar3 : Json := bar "000000000003" 30 31 29 30 300.
Definition bar4 : Json := bar "000000000004" 40 41 39 40 400.


(** The adapter holding [t=1, t=2] for the one-minute timeframe. *)
Definition world12 : World :=
  startWorld (withWindow "M" [candle1; candle2] demoHuobi) 0.

(** The adapter before its first call. *)
Definition world0 : World := startWorld demoHuobi 0.

(** The adapter holding [t=1, t=2, t=3] for the one-minute timeframe. *)
Definition world123 : World :=
  startWorld (withWindow "M" [candle1; candle2; candle3] demoHuobi) 0.

(** An order on a symbol the adapter does not support. *)
Definition dogeOrder : Order :=
  {| ID := "7"; Price := 0%float; Amount := 0%float; DealAmount := 0%float;
     OrderType := 1; StockType := "DOGE" |}.


(** An adapter whose main stock is LTC. *)
Definition worldLTC : World :=
  startWorld (NewHuobi (setMainStock "LTC" demoOption)) 0.

(** The vendor's answers of the scenarios: an account, an accepted order, a
    list of two orders, and a book of one level a side. *)
Definition ltcReply : Json :=
  JObject {[ "code" := JNumber (NInt 0);
             "available_btc_display" := JNumber (NFloat 2%float);
             "available_ltc_display" := JNumber (NFloat 5%float);
             "frozen_ltc_display" := JNumber (NFloat 1%float) ]}.


Definition idReply : Json := JObject {[ "id" := JNumber (NInt 42) ]}.

Definition ordersReply : Json :=
  JArray [JObject {[ "id" := JNumber (NInt 1); "type" := JString "1" ]};
          JObject {[ "id" := JNumber (NInt 2); "type" := JString "4" ]}].

Definition depthReply : Json :=
  JObject {[ "bids" := JArray [JArray [JNumber (NFloat 99%float);
                                       JNumber (NFloat 1%float)]];
             "asks" := JArray [JArray [JNumber (NFloat 101%float);
                                       JNumber (NFloat 2%float)]] ]}.

(** * Properties *)

(** Unfolds the monad of the operations down to functions on worlds. *)
Ltac run_monad :=
  unfold bind, ret, panic, readSelf, writeSelf, timeNowUnix, logDo, println,
    send in *;
  simpl in *.

(** ** The embedding on small inputs *)

Example Int64Must_stamp : Int64Must "201606191000" = 201606191000.
Proof. reflexivity. Qed.

Example Int64Must_not_a_number : Int64Must "2016-06-19 1" = 0.
Proof. reflexivity. Qed.

Example recordTime_minute :
  recordTime (JArray [JString "20160619100000000"]) = Some 201606191000.
Proof. reflexivity. Qed.

Example recordTime_default_stamp : recordTime (JArray []) = Some 197001010000.
Proof. reflexivity. Qed.

Example recordTime_short_stamp : recordTime (JArray [JString "2016"]) = None.
Proof. reflexivity. Qed.

Example sortStrings_bytewise :
  sortStrings ["method=buy"; "coin_type=1"; "amount=2"; "Z=0"] =
  ["Z=0"; "amount=2"; "coin_type=1"; "method=buy"].
Proof. vm_compute. reflexivity. Qed.

Example NewHuobi_unknown_main_stock :
  MainStock (option_ (NewHuobi (setMainStock "DOGE" demoOption))) = "BTC".
Proof. vm_compute. reflexivity. Qed.

Example tickerSize_examples :
  tickerSize [] = 20 ∧ tickerSize [5] = 20 ∧ tickerSize [20] = 20 ∧
  tickerSize [21; 3] = 21.
Proof. by vm_compute. Qed.

(** An empty window and a bar whose stamp reads as 0: the bar equals the
    sentinel, and the assignment to the last element of an empty slice
    panics. *)
Example GetRecords_panics_on_zero_stamp :
  (@GetRecords (replying (JArray [bar "000000000000" 1 1 1 1 1])) "BTC" "M" []
     world0).1 = Panicked "index out of range [-1]".
Proof. vm_compute. reflexivity. Qed.

(** ** Lists and windows *)

Lemma replace_last {A} (l : list A) (x y : A) :
  <[(length (l ++ [x]) - 1)%nat := y]> (l ++ [x]) = l ++ [y].
Proof.
  rewrite length_app. simpl.
  replace (length l + 1 - 1)%nat with (length l + 0)%nat by lia.
  by rewrite insert_app_r.
Qed.

Lemma timeLastOf_snoc (l : list Record) (r : Record) :
  timeLastOf (l ++ [r]) = Time r.
Proof. unfold timeLastOf. by rewrite last_snoc. Qed.

Lemma nil_or_snoc {A} (l : list A) : l = [] ∨ ∃ l' x, l = l' ++ [x].
Proof.
  destruct (last l) as [x|] eqn:E.
  - right. apply last_Some in E as [l' ->]. eauto.
  - left. by apply last_None.
Qed.

(** ** The merge loop *)

(** One turn of the loop on a window that has a last bar. *)
Lemma mergeLoop_snoc json i timeLast (w0 : list Record) r rn :
  mergeLoop json (S i) timeLast (w0 ++ [r]) rn =
  match recordTime (GetIndex i json) with
  | None => (w0 ++ [r], Panicked "slice bounds out of range")
  | Some t =>
      if timeLast <? t then
        mergeLoop json i timeLast (w0 ++ [r]) (rn ++ [recordOf t (GetIndex i json)])
      else if t =? timeLast then
        mergeLoop json i timeLast (w0 ++ [recordOf t (GetIndex i json)]) rn
      else (w0 ++ [r], Returned rn)
  end.
Proof.
  simpl. destruct (recordTime (GetIndex i json)) as [t|]; [|done].
  destruct (timeLast <? t); [done|]. destruct (t =? timeLast); [|done].
  destruct (w0 ++ [r]) as [|r0 rest] eqn:E.
  - by destruct w0.
  - rewrite <- E. by rewrite replace_last.
Qed.

(** One turn of the loop on the empty window. *)
Lemma mergeLoop_nil json i timeLast rn :
  mergeLoop json (S i) timeLast [] rn =
  match recordTime (GetIndex i json) with
  | None => ([], Panicked "slice bounds out of range")
  | Some t =>
      if timeLast <? t then
        mergeLoop json i timeLast [] (rn ++ [recordOf t (GetIndex i json)])
      else if t =? timeLast then ([], Panicked "index out of range [-1]")
      else ([], Returned rn)
  end.
Proof. reflexivity. Qed.

(** The loop never changes the timestamps of the window: it only rewrites
    the last bar, with a bar of the same time. *)
Lemma mergeLoop_times json i win rn :
  Time <$> (mergeLoop json i (timeLastOf win) win rn).1 = Time <$> win.
Proof.
  revert win rn. induction i as [|i IH]; intros win rn; [done|].
  destruct (nil_or_snoc win) as [->|(w0 & r & ->)].
  - rewrite mergeLoop_nil.
    destruct (recordTime (GetIndex i json)) as [t|]; [|done].
    destruct (timeLastOf [] <? t); [apply (IH [])|].
    by destruct (t =? timeLastOf []).
  - rewrite mergeLoop_snoc.
    destruct (recordTime (GetIndex i json)) as [t|]; [|done].
    destruct (timeLastOf (w0 ++ [r]) <? t); [apply IH|].
    destruct (t =? timeLastOf (w0 ++ [r])) eqn:E; [|done].
    apply Z.eqb_eq in E. rewrite timeLastOf_snoc in E.
    assert (timeLastOf (w0 ++ [r]) =
            timeLastOf (w0 ++ [recordOf t (GetIndex i json)])) as ->.
    { by rewrite !timeLastOf_snoc. }
    rewrite IH, !fmap_app. simpl. by rewrite E.
Qed.

Lemma mergeLoop_length json i win rn :
  length (mergeLoop json i (timeLastOf win) win rn).1 = length win.
Proof.
  rewrite <- (length_fmap Time), mergeLoop_times. apply length_fmap.
Qed.

(** With nothing to walk the loop leaves the window and [recordsNew] alone. *)
Lemma mergeLoop_empty json timeLast win rn :
  MustArray json = [] →
  mergeLoop json (length (MustArray json)) timeLast win rn = (win, Returned rn).
Proof. by intros ->. Qed.

(** ** The merge into the window *)

(** The window of the period after the loop wrote through it. *)
Lemma window_after_loop (e : Huobi) (p : string) json i rn :
  let win := (mergeLoop json i (timeLastOf (window e p)) (window e p) rn).1 in
  window (setRecords (alter (λ _, win) p (records e)) e) p = win.
Proof.
  intros win. pose proof (mergeLoop_length json i (window e p) rn) as Hlen.
  fold win in Hlen. unfold window in *. simpl.
  rewrite lookup_alter_eq. destruct (records e !! p) as [w0|]; simpl in *; [done|].
  by destruct win.
Qed.

(** What [reconcile] returns and the window it leaves, from the result of
    the loop. *)
Lemma reconcile_spec (p : string) (json : Json) (size : Z) (w : World) win looped :
  mergeLoop json (length (MustArray json)) (timeLastOf (window (self w) p))
    (window (self w) p) [] = (win, looped) →
  let r := reconcile p json size w in
  match looped with
  | Panicked msg => r.1 = Panicked msg ∧ window (self r.2) p = win
  | Returned recordsNew =>
      let merged := win ++ recordsNew in
      if size <? Z.of_nat (length merged) then
        if size <? 0 then
          r.1 = Panicked "slice bounds out of range" ∧ window (self r.2) p = merged
        else
          r.1 = Returned (take (Z.to_nat size) merged) ∧
          window (self r.2) p = take (Z.to_nat size) merged
      else r.1 = Returned merged ∧ window (self r.2) p = merged
  end.
Proof.
  intros Hloop r. subst r. unfold reconcile. run_monad.
  pose proof (window_after_loop (self w) p json (length (MustArray json)) []) as Hw.
  rewrite Hloop in *. simpl in Hw.
  destruct looped as [recordsNew|msg]; simpl; [|done].
  rewrite Hw.
  destruct (size <? Z.of_nat (length (win ++ recordsNew))) eqn:Hcut; simpl.
  - destruct (size <? 0); simpl.
    + split; [done|]. unfold window. simpl. by rewrite lookup_insert_eq.
    + unfold window. simpl. by rewrite !lookup_insert_eq.
  - unfold window. simpl. by rewrite !lookup_insert_eq.
Qed.

(** When the merged window is longer than a non-negative [size], what stays
    is its first [size] bars. *)
Lemma reconcile_cut_keeps_first_bars (p : string) (json : Json) (size : Z)
    (w : World) win recordsNew :
  mergeLoop json (length (MustArray json)) (timeLastOf (window (self w) p))
    (window (self w) p) [] = (win, Returned recordsNew) →
  0 ≤ size < Z.of_nat (length (win ++ recordsNew)) →
  window (self (reconcile p json size w).2) p =
  take (Z.to_nat size) (win ++ recordsNew).
Proof.
  intros Hloop [Hpos Hcut]. pose proof (reconcile_spec p json size w _ _ Hloop) as Hspec.
  simpl in Hspec.
  destruct (Z.ltb_spec size (Z.of_nat (length (win ++ recordsNew)))); [|lia].
  destruct (Z.ltb_spec size 0); [lia|]. by destruct Hspec.
Qed.

(** [reconcile] touches the window of its own period only, and neither the
    network nor the log. *)
Lemma reconcile_frame (p : string) (json : Json) (size : Z) (w : World) :
  let r := reconcile p json size w in
  (∀ q, q ≠ p → window (self r.2) q = window (self w) q) ∧
  wire r.2 = wire w ∧ journal r.2 = journal w.
Proof.
  simpl. unfold reconcile. run_monad.
  destruct (mergeLoop json _ _ _ _) as [win [recordsNew|msg]]; simpl.
  - destruct (size <? _); simpl; [destruct (size <? 0); simpl|];
      (split; [|done]); intros q Hq; unfold window; simpl;
      rewrite ?lookup_insert_ne by done; by rewrite lookup_alter_ne.
  - split; [|done]. intros q Hq. unfold window. simpl.
    by rewrite lookup_alter_ne.
Qed.

(** ** GetRecords *)

Section GetRecordsFacts.
Context `{Collaborators}.

(** A call with recognised arguments whose fetch decodes merges the decoded
    tree. *)
Lemma GetRecords_merges stockType period sizes w body json :
  is_Some (stockMap (self w) !! stockType) →
  is_Some (periodMap (self w) !! period) →
  get (recordsURL (self w) stockType period) = Success body →
  NewJson body = Success json →
  GetRecords stockType period sizes w =
  reconcile period json (recordsSize sizes) (fetched (self w) stockType period w).
Proof.
  intros [? Hs] [? Hp] Hget Hjson. unfold GetRecords, httpGet, fetched.
  run_monad. by rewrite Hs, Hp, Hget, Hjson.
Qed.

(** Every call either gives up with the adapter untouched, or merges a
    decoded tree. *)
Lemma GetRecords_cases stockType period sizes w :
  ((GetRecords stockType period sizes w).1 = Returned [] ∧
   self (GetRecords stockType period sizes w).2 = self w) ∨
  (∃ body json,
     get (recordsURL (self w) stockType period) = Success body ∧
     NewJson body = Success json ∧
     GetRecords stockType period sizes w =
     reconcile period json (recordsSize sizes)
       (fetched (self w) stockType period w)).
Proof.
  destruct (stockMap (self w) !! stockType) as [c|] eqn:Hs; cycle 1.
  { left. unfold GetRecords. run_monad. by rewrite Hs. }
  destruct (periodMap (self w) !! period) as [c'|] eqn:Hp; cycle 1.
  { left. unfold GetRecords. run_monad. by rewrite Hs, Hp. }
  destruct (get (recordsURL (self w) stockType period)) as [body|err] eqn:Hget;
    cycle 1.
  { left. unfold GetRecords, httpGet. run_monad. by rewrite Hs, Hp, Hget. }
  destruct (NewJson body) as [json|err] eqn:Hjson; cycle 1.
  { left. unfold GetRecords, httpGet. run_monad. by rewrite Hs, Hp, Hget, Hjson. }
  right. exists body, json. split_and!; [done..|].
  eapply GetRecords_merges; eauto.
Qed.

End GetRecordsFacts.

(** ** Reconciliation on the scenarios *)

Lemma GetIndex_at (l : list Json) (k i : nat) (tail : list Json) (j : Json) :
  i = (length l + k)%nat → tail !! k = Some j →
  GetIndex i (JArray (l ++ tail)) = j.
Proof.
  intros -> Hk. simpl.
  by rewrite lookup_app_r, Nat.add_comm, Nat.add_sub, Hk by lia.
Qed.

(** Two lists of bars differ when the highs of their bars differ. *)
Ltac differ_by_high :=
  let E := fresh in
  intros E; apply (f_equal (fmap (λ r, PrimFloat.eqb (High r) 25))) in E;
  vm_compute in E; discriminate E.

(** C1: with cap 2 and window [t=1, t=2], merging the incoming bar t=3 leaves
    the window [t=1, t=2]: the cut [e.records[period][:size]] keeps the first
    bars, the oldest, and drops the bar just fetched, where the window should
    become [t=2, t=3]. *)
Theorem GetRecords_cap_keeps_first_bars :
  let r := @GetRecords (replying (JArray [bar3])) "BTC" "M" [2] world12 in
  r.1 = Returned [candle1; candle2] ∧
  window (self r.2) "M" = [candle1; candle2] ∧
  window (self r.2) "M" ≠ [candle2; candle3].
Proof.
  vm_compute. split_and!; [reflexivity..|]. intros E. discriminate E.
Qed.

Section Reconciliation.
Context `{Collaborators}.

(** The walk over an array that ends in [older; same; newer] on a window
    whose last bar has the time of [same]. *)
Lemma mergeLoop_update_append (l : list Json) older same newer
    (w0 : list Record) (r : Record) t1 t3 :
  recordTime older = Some t1 → recordTime same = Some (Time r) →
  recordTime newer = Some t3 → t1 < Time r < t3 →
  mergeLoop (JArray (l ++ [older; same; newer])) (length (l ++ [older; same; newer]))
    (Time r) (w0 ++ [r]) [] =
  (w0 ++ [recordOf (Time r) same], Returned [recordOf t3 newer]).
Proof.
  intros H1 H2 H3 [Hlt1 Hlt3]. rewrite length_app. simpl length.
  replace (length l + 3)%nat with (S (S (S (length l)))) by lia.
  rewrite mergeLoop_snoc, (GetIndex_at l 2 _ _ newer), H3 by (lia || done).
  destruct (Z.ltb_spec (Time r) t3); [|lia].
  rewrite mergeLoop_snoc, (GetIndex_at l 1 _ _ same), H2 by (lia || done).
  rewrite Z.ltb_irrefl, Z.eqb_refl.
  rewrite mergeLoop_snoc, (GetIndex_at l 0 _ _ older), H1 by (lia || done).
  destruct (Z.ltb_spec (Time r) t1); [lia|].
  destruct (Z.eqb_spec t1 (Time r)); [lia|]. done.
Qed.

(** X18: when the fetched array ends, in array order, in a bar older than
    the last bar held, a bar at the time of the last bar held and one newer
    bar, GetRecords, walking from the last element, appends the newer bar,
    replaces the last bar held by the fetched one of its time and stops at
    the older bar, whatever precedes them in the array: the window [r1, r2]
    becomes [r1, r2 as fetched, the new bar]. *)
Theorem GetRecords_mixed_update stockType period sizes (w : World) body
    (l : list Json) older same newer (r1 r2 : Record) t1 t3 :
  is_Some (stockMap (self w) !! stockType) →
  is_Some (periodMap (self w) !! period) →
  get (recordsURL (self w) stockType period) = Success body →
  NewJson body = Success (JArray (l ++ [older; same; newer])) →
  window (self w) period = [r1; r2] →
  recordTime older = Some t1 → recordTime same = Some (Time r2) →
  recordTime newer = Some t3 → t1 < Time r2 < t3 →
  3 ≤ recordsSize sizes →
  let r := GetRecords stockType period sizes w in
  r.1 = Returned [r1; recordOf (Time r2) same; recordOf t3 newer] ∧
  window (self r.2) period = [r1; recordOf (Time r2) same; recordOf t3 newer].
Proof.
  intros Hs Hp Hget Hjson Hwin H1 H2 H3 Hlt Hsize r. subst r.
  rewrite (GetRecords_merges _ _ _ _ _ _ Hs Hp Hget Hjson).
  pose proof (reconcile_spec period (JArray (l ++ [older; same; newer]))
    (recordsSize sizes) (fetched (self w) stockType period w)) as Hspec.
  simpl self in Hspec. rewrite Hwin in Hspec. simpl MustArray in Hspec.
  change [r1; r2] with ([r1] ++ [r2]) in Hspec. rewrite timeLastOf_snoc in Hspec.
  specialize (Hspec _ _ (mergeLoop_update_append l _ _ _ [r1] r2 _ _ H1 H2 H3 Hlt)).
  simpl in Hspec.
  destruct (Z.ltb_spec (recordsSize sizes) (Z.of_nat 3)); [lia|]. done.
Qed.

End Reconciliation.

(** X18, witness: the window [t=1, t=2] and the array [t=1, t=2(revised),
    t=3]. *)
Lemma GetRecords_mixed_update_witness :
  let r := @GetRecords (replying (JArray [bar1; bar2rev; bar3])) "BTC" "M" [] world12 in
  r.1 = Returned [candle1; candle2rev; candle3] ∧
  window (self r.2) "M" = [candle1; candle2rev; candle3].
Proof.
  apply (@GetRecords_mixed_update (replying (JArray [bar1; bar2rev; bar3]))
           "BTC" "M" [] world12 "" [] bar1 bar2rev bar3 candle1 candle2 1 3);
    [ vm_compute; eauto | vm_compute; eauto | reflexivity | reflexivity
    | reflexivity | reflexivity | reflexivity | reflexivity
    | vm_compute; split; reflexivity | vm_compute; discriminate ].
Defined.

(** C2: given the window [t=1, t=2] and the batch [t=3, t=2(revised), t=1]
    in the vendor's newest-first order, reconciliation should give
    [t=1, t=2(revised), t=3].  The code leaves [t=1, t=2] with the old values
    of t=2: its walk starts at the end of the array, meets the older t=1 bar
    first and breaks, so a batch that overlaps the window merges nothing.
    Reading the array the other way does not mend the loop: an oldest-first
    array with two new bars is appended newest first, which gives
    [t=1, t=2(revised), t=4, t=3]. *)
Theorem GetRecords_overlapping_batch_merges_nothing :
  let res := @GetRecords (replying (JArray [bar3; bar2rev; bar1])) "BTC" "M" [] world12 in
  let flipped :=
    @GetRecords (replying (JArray [bar1; bar2rev; bar3; bar4])) "BTC" "M" [] world12 in
  res.1 = Returned [candle1; candle2] ∧
  window (self res.2) "M" = [candle1; candle2] ∧
  window (self res.2) "M" ≠ [candle1; candle2rev; candle3] ∧
  window (self flipped.2) "M" = [candle1; candle2rev; candle4; candle3].
Proof.
  vm_compute. split_and!; [reflexivity..| |reflexivity].
  intros E. discriminate E.
Qed.

Section InPlaceUpdate.
Context `{Collaborators}.

(** The walk over an array whose last bar has the time of the last bar held,
    with nothing or an older bar before it. *)
Lemma mergeLoop_update (l : list Json) same (w0 : list Record) (r : Record) :
  recordTime same = Some (Time r) →
  (∀ j, last l = Some j → ∃ t, recordTime j = Some t ∧ t < Time r) →
  mergeLoop (JArray (l ++ [same])) (length (l ++ [same])) (Time r) (w0 ++ [r]) [] =
  (w0 ++ [recordOf (Time r) same], Returned []).
Proof.
  intros Hsame Hold. rewrite length_app. simpl length.
  replace (length l + 1)%nat with (S (length l)) by lia.
  rewrite mergeLoop_snoc, (GetIndex_at l 0 _ _ same), Hsame by (lia || done).
  rewrite Z.ltb_irrefl, Z.eqb_refl.
  destruct (nil_or_snoc l) as [->|(l' & older & ->)]; [done|].
  destruct (Hold older) as (t & Ht & Hlt); [apply last_snoc|].
  rewrite length_app. simpl length.
  replace (length l' + 1)%nat with (S (length l')) by lia.
  rewrite <- (assoc_L (++)). simpl app.
  rewrite mergeLoop_snoc, (GetIndex_at l' 0 _ _ older), Ht by (lia || done).
  destruct (Z.ltb_spec (Time r) t); [lia|].
  destruct (Z.eqb_spec t (Time r)); [lia|]. done.
Qed.

(** X19: when the bar at the end of the fetched array, the first one the
    walk meets, has the timestamp of the last bar held and the bar before it
    in the array, if any, is older, GetRecords replaces the last bar in
    place with the fetched values, appends nothing and keeps the length of
    the window. *)
Theorem GetRecords_update_in_place stockType period sizes (w : World) body
    (l : list Json) same (w0 : list Record) (r : Record) :
  is_Some (stockMap (self w) !! stockType) →
  is_Some (periodMap (self w) !! period) →
  get (recordsURL (self w) stockType period) = Success body →
  NewJson body = Success (JArray (l ++ [same])) →
  window (self w) period = w0 ++ [r] →
  recordTime same = Some (Time r) →
  (∀ j, last l = Some j → ∃ t, recordTime j = Some t ∧ t < Time r) →
  Z.of_nat (length (w0 ++ [r])) ≤ recordsSize sizes →
  let res := GetRecords stockType period sizes w in
  res.1 = Returned (w0 ++ [recordOf (Time r) same]) ∧
  window (self res.2) period = w0 ++ [recordOf (Time r) same] ∧
  length (window (self res.2) period) = length (window (self w) period).
Proof.
  intros Hs Hp Hget Hjson Hwin Hsame Hold Hsize res. subst res.
  rewrite (GetRecords_merges _ _ _ _ _ _ Hs Hp Hget Hjson).
  pose proof (reconcile_spec period (JArray (l ++ [same]))
    (recordsSize sizes) (fetched (self w) stockType period w)) as Hspec.
  simpl self in Hspec. rewrite Hwin in Hspec. simpl MustArray in Hspec.
  rewrite timeLastOf_snoc in Hspec.
  specialize (Hspec _ _ (mergeLoop_update l _ w0 r Hsame Hold)).
  cbv beta iota zeta in Hspec. rewrite app_nil_r in Hspec.
  rewrite length_app in Hsize, Hspec. simpl length in Hsize, Hspec.
  destruct (Z.ltb_spec (recordsSize sizes) (Z.of_nat (length w0 + 1))); [lia|].
  destruct Hspec as [-> ->]. rewrite Hwin, !length_app. done.
Qed.

End InPlaceUpdate.

(** X19, witness: the window [t=1, t=2] and the array [t=1,
    t=2(revised)]. *)
Lemma GetRecords_update_in_place_witness :
  let res := @GetRecords (replying (JArray [bar1; bar2rev])) "BTC" "M" [] world12 in
  res.1 = Returned [candle1; candle2rev] ∧
  window (self res.2) "M" = [candle1; candle2rev] ∧
  length (window (self res.2) "M") = length (window (self world12) "M").
Proof.
  apply (@GetRecords_update_in_place (replying (JArray [bar1; bar2rev]))
           "BTC" "M" [] world12 "" [bar1] bar2rev [candle1] candle2);
    [ vm_compute; eauto | vm_compute; eauto | reflexivity | reflexivity
    | reflexivity | reflexivity | | vm_compute; discriminate ].
  intros j Hj. exists 1. injection Hj as <-. split; [reflexivity|]. vm_compute. reflexivity.
Defined.

(** C4: a fetched bar whose timestamp equals that of the last bar held
    should replace that bar in place, the window [t=1, t=2] merged with the
    incoming [t=2(revised), t=1] giving [t=1, t=2(revised)].  The code leaves
    [t=1, t=2] with the old values: its walk starts at the end of the array,
    meets the older t=1 bar first and breaks before it reaches the revised
    bar, so the replacing branch is never taken on a batch that overlaps the
    window by more than its last bar. *)
Theorem GetRecords_revised_bar_not_reached :
  let res := @GetRecords (replying (JArray [bar2rev; bar1])) "BTC" "M" [] world12 in
  res.1 = Returned [candle1; candle2] ∧
  window (self res.2) "M" = [candle1; candle2] ∧
  window (self res.2) "M" ≠ [candle1; candle2rev] ∧
  length (window (self res.2) "M") = length (window (self world12) "M").
Proof.
  split_and!; [reflexivity..| |reflexivity]. differ_by_high.
Qed.

Section FirstCall.
Context `{Collaborators}.

(** While every bar the walk meets is newer than [timeLast], the loop
    appends them in the order it meets them: the reverse of the array. *)
Lemma mergeLoop_all_newer (l : list Json) timeLast win i rs rn :
  Forall2 (λ j r, decoded j = Some r ∧ timeLast < Time r) (take i l) rs →
  (i ≤ length l)%nat →
  mergeLoop (JArray l) i timeLast win rn = (win, Returned (rn ++ reverse rs)).
Proof.
  revert rs rn. induction i as [|i IH]; intros rs rn Hall Hi.
  - rewrite take_0 in Hall. apply Forall2_nil_inv_l in Hall as ->.
    simpl. by rewrite app_nil_r.
  - destruct (lookup_lt_is_Some_2 l i) as [x Hx]; [lia|].
    rewrite (take_S_r _ _ _ Hx) in Hall.
    apply Forall2_app_inv_l in Hall as (rs1 & rs2 & Hall1 & Hall2 & ->).
    apply Forall2_cons_inv_l in Hall2 as (rx & rs3 & [Hdec Hnew] & Hnil & ->).
    apply Forall2_nil_inv_l in Hnil as ->.
    unfold decoded in Hdec. simpl. rewrite Hx. simpl.
    destruct (recordTime x) as [t|]; [|done]. simpl in Hdec.
    injection Hdec as <-. simpl in Hnew.
    destruct (Z.ltb_spec timeLast t); [|lia].
    rewrite (IH rs1) by (done || lia).
    by rewrite reverse_app, <- (assoc_L (++)).
Qed.


End FirstCall.



Section EmptyBatch.
Context `{Collaborators}.

(** C5 (as the code has it): a call whose incoming set is empty leaves the
    window of every timeframe exactly as it was, for every prior window and
    every size argument that is not smaller than the length of the window;
    the cut to [size] runs on every merge, also on an empty one. *)
Theorem GetRecords_empty_batch stockType period sizes (w : World) :
  (∀ body json,
     get (recordsURL (self w) stockType period) = Success body →
     NewJson body = Success json → MustArray json = []) →
  Z.of_nat (length (window (self w) period)) ≤ recordsSize sizes →
  let res := GetRecords stockType period sizes w in
  ∀ q, window (self res.2) q = window (self w) q.
Proof.
  intros Hempty Hsize res q. subst res.
  destruct (GetRecords_cases stockType period sizes w)
    as [[_ ->]|(body & json & Hget & Hjson & ->)]; [done|].
  specialize (Hempty _ _ Hget Hjson).
  destruct (decide (q = period)) as [->|Hq].
  - pose proof (reconcile_spec period json (recordsSize sizes)
      (fetched (self w) stockType period w)) as Hspec.
    simpl self in Hspec.
    specialize (Hspec _ _ (mergeLoop_empty json _ _ [] Hempty)).
    cbv beta iota zeta in Hspec. rewrite app_nil_r in Hspec.
    destruct (Z.ltb_spec (recordsSize sizes)
                (Z.of_nat (length (window (self w) period)))); [lia|].
    by destruct Hspec as [_ ->].
  - by apply (reconcile_frame period json (recordsSize sizes)
                (fetched (self w) stockType period w)).
Qed.

End EmptyBatch.

(** C5, witness: the window [t=1, t=2], an empty array and the default size. *)
Lemma GetRecords_empty_batch_witness :
  window (self (@GetRecords (replying (JArray [])) "BTC" "M" [] world12).2) "M" =
  window (self world12) "M" ∧
  window (self (@GetRecords (replying (JArray [])) "BTC" "M" [] world12).2) "H" =
  window (self world12) "H".
Proof.
  assert (Z.of_nat (length (window (self world12) "M")) ≤ recordsSize []) as Hsize.
  { vm_compute. discriminate. }
  split;
    apply (@GetRecords_empty_batch (replying (JArray [])) "BTC" "M" [] world12
             (λ body json _ Hjson,
                match Hjson in _ = y
                return match y with Success j => MustArray j = [] | _ => True end
                with eq_refl => eq_refl end)
             Hsize).
Defined.

(** C5, as stated, fails: with the window [t=1, t=2, t=3] and the size
    argument 2, merging an empty incoming set cuts the window to
    [t=1, t=2]. *)
Lemma GetRecords_empty_batch_cuts :
  let res := @GetRecords (replying (JArray [])) "BTC" "M" [2] world123 in
  window (self world123) "M" = [candle1; candle2; candle3] ∧
  res.1 = Returned [candle1; candle2] ∧
  window (self res.2) "M" = [candle1; candle2] ∧
  window (self res.2) "M" ≠ window (self world123) "M".
Proof.
  split_and!; [reflexivity..|]. intros E. vm_compute in E. discriminate E.
Qed.

(** ** The invariant of a window under GetRecords *)

Lemma GetIndex_MustArray (json : Json) (i : nat) :
  GetIndex i json = default JNull (MustArray json !! i).
Proof. by destruct json. Qed.

Lemma StronglySorted_lt_NoDup (l : list Z) : StronglySorted Z.lt l → NoDup l.
Proof.
  induction 1 as [|x l Hl IH Hx]; constructor; [|done].
  intros Hin. rewrite Forall_forall in Hx. specialize (Hx x Hin). lia.
Qed.

(** In a chronological window the last bar has the greatest time. *)
Lemma chronological_last (win : list Record) (r : Record) :
  chronological win → r ∈ win → Time r ≤ timeLastOf win.
Proof.
  intros Hc Hr. destruct (nil_or_snoc win) as [->|(w0 & x & ->)].
  - by apply elem_of_nil in Hr.
  - rewrite timeLastOf_snoc. apply elem_of_app in Hr as [Hr|Hr].
    + unfold chronological in Hc. rewrite fmap_app in Hc.
      apply Z.lt_le_incl.
      apply (StronglySorted_app_1_elem_of _ _ _ _ _ Hc).
      * by apply list_elem_of_fmap_2.
      * apply list_elem_of_fmap_2. set_solver.
    + apply list_elem_of_singleton in Hr as ->. lia.
Qed.

(** On an array whose newer bars come newest first, the bars the loop
    appends are chronological and newer than [timeLast]. *)
Lemma mergeLoop_chronological (json : Json) (timeLast : Z) :
  newestFirstAbove timeLast (MustArray json) →
  ∀ i win rn win' rn',
    (i ≤ length (MustArray json))%nat →
    chronological rn →
    (∀ r, r ∈ rn → timeLast < Time r) →
    (∀ r (k : nat) j t, r ∈ rn → (k < i)%nat → MustArray json !! k = Some j →
                        recordTime j = Some t → timeLast < t → Time r < t) →
    mergeLoop json i timeLast win rn = (win', Returned rn') →
    chronological rn' ∧ (∀ r, r ∈ rn' → timeLast < Time r).
Proof.
  intros Hnf. induction i as [|i IH];
    intros win rn win' rn' Hi Hc Hnew Hbelow Hloop.
  { simpl in Hloop. by injection Hloop as _ <-. }
  destruct (lookup_lt_is_Some_2 (MustArray json) i) as [j Hj]; [lia|].
  simpl in Hloop. rewrite GetIndex_MustArray, Hj in Hloop. simpl in Hloop.
  destruct (recordTime j) as [t|] eqn:Ht; [|done].
  destruct (Z.ltb_spec timeLast t) as [Hlt|Hge].
  - eapply IH; [lia| | | |exact Hloop].
    + unfold chronological in *. rewrite fmap_app. simpl.
      apply StronglySorted_app_2; [|done|repeat constructor].
      intros x1 x2 Hx1 Hx2. apply list_elem_of_singleton in Hx2 as ->.
      apply list_elem_of_fmap in Hx1 as (r & -> & Hr).
      apply (Hbelow r i j t); (done || lia).
    + intros r Hr. apply elem_of_app in Hr as [Hr|Hr]; [by apply Hnew|].
      by apply list_elem_of_singleton in Hr as ->.
    + intros r k j' t' Hr Hk Hj' Ht' Hlt'.
      apply elem_of_app in Hr as [Hr|Hr].
      * apply (Hbelow r k j' t'); (done || lia).
      * apply list_elem_of_singleton in Hr as ->. simpl.
        apply (Hnf k i j' j t' t); (done || lia).
  - destruct (t =? timeLast).
    + destruct win as [|r0 win0]; [done|].
      eapply IH; [lia|done|done| |exact Hloop].
      intros r k j' t' Hr Hk. apply Hbelow; (done || lia).
    + by injection Hloop as _ <-.
Qed.

Section WindowInvariant.
Context `{Collaborators}.

(** The merge of an array whose newer bars come newest first keeps a
    chronological window chronological, and a window within [size] within
    [size]. *)
Lemma reconcile_keeps_invariant (period : string) (json : Json) (size : Z)
    (w : World) :
  newestFirstAbove (timeLastOf (window (self w) period)) (MustArray json) →
  chronological (window (self w) period) →
  Z.of_nat (length (window (self w) period)) ≤ size →
  let win' := window (self (reconcile period json size w).2) period in
  Z.of_nat (length win') ≤ size ∧ chronological win'.
Proof.
  intros Hnf Hc Hsize. simpl.
  pose proof (reconcile_spec period json size w) as Hspec.
  pose proof (mergeLoop_times json (length (MustArray json))
                (window (self w) period) []) as Htimes.
  pose proof (mergeLoop_chronological json (timeLastOf (window (self w) period))
                Hnf (length (MustArray json)) (window (self w) period) [])
    as Hnew.
  destruct (mergeLoop json _ _ _ _) as [win1 looped]. simpl in Htimes.
  specialize (Hspec _ _ eq_refl). simpl in Hspec.
  assert (length win1 = length (window (self w) period)) as Hlen.
  { by rewrite <- (length_fmap Time), Htimes, length_fmap. }
  assert (chronological win1) as Hc1.
  { unfold chronological. by rewrite Htimes. }
  destruct looped as [rn|msg].
  - destruct (Hnew win1 rn) as [Hcn Hgt]; [done|constructor|set_solver|set_solver|done|].
    assert (chronological (win1 ++ rn)) as Hcm.
    { unfold chronological in *. rewrite fmap_app.
      apply StronglySorted_app_2; [|done..].
      intros x1 x2 Hx1 Hx2.
      apply list_elem_of_fmap in Hx2 as (r2 & -> & Hr2).
      rewrite Htimes in Hx1. apply list_elem_of_fmap in Hx1 as (r1 & -> & Hr1).
      pose proof (chronological_last _ _ Hc Hr1). specialize (Hgt _ Hr2). lia. }
    destruct (Z.ltb_spec size (Z.of_nat (length (win1 ++ rn)))).
    + destruct (Z.ltb_spec size 0); [lia|].
      destruct Hspec as [_ ->]. split.
      * pose proof (length_take_le (win1 ++ rn) (Z.to_nat size)). lia.
      * unfold chronological in *. rewrite fmap_take.
        apply (StronglySorted_app_1_l _ _ (drop (Z.to_nat size) (Time <$> (win1 ++ rn)))).
        by rewrite take_drop.
    + by destruct Hspec as [_ ->].
  - destruct Hspec as [_ ->]. split; [lia|done].
Qed.

(** C9 (as the code has it): a GetRecords call in whose fetched array the
    bars newer than the last bar held come newest first (strictly decreasing
    timestamps in array order) preserves the invariant of the window it
    merges into: given a window in strictly increasing time and of a length
    within the size of the call, after the call, returned or panicked, the
    length of the window is still within that size, its bars are in strictly
    increasing time with no timestamp twice, and its last bar has the
    greatest timestamp; the windows of the other timeframes are as they
    were. *)
Theorem GetRecords_keeps_window_invariant stockType period sizes (w : World) :
  (∀ body json,
     get (recordsURL (self w) stockType period) = Success body →
     NewJson body = Success json →
     newestFirstAbove (timeLastOf (window (self w) period)) (MustArray json)) →
  chronological (window (self w) period) →
  Z.of_nat (length (window (self w) period)) ≤ recordsSize sizes →
  let after := self (GetRecords stockType period sizes w).2 in
  Z.of_nat (length (window after period)) ≤ recordsSize sizes ∧
  chronological (window after period) ∧
  NoDup (Time <$> window after period) ∧
  (∀ r, r ∈ window after period → Time r ≤ timeLastOf (window after period)) ∧
  (∀ q, q ≠ period → window after q = window (self w) q).
Proof.
  intros Hnf Hc Hsize after.
  assert (Z.of_nat (length (window after period)) ≤ recordsSize sizes ∧
          chronological (window after period) ∧
          (∀ q, q ≠ period → window after q = window (self w) q))
    as (Hlen & Hchron & Hframe).
  { subst after.
    destruct (GetRecords_cases stockType period sizes w)
      as [[_ ->]|(body & json & Hget & Hjson & ->)]; [done|].
    specialize (Hnf _ _ Hget Hjson).
    destruct (reconcile_keeps_invariant period json (recordsSize sizes)
                (fetched (self w) stockType period w)) as [? ?]; [done..|].
    split_and!; [done..|].
    apply (reconcile_frame period json (recordsSize sizes)
             (fetched (self w) stockType period w)). }
  split_and!; [done|done| |by intros r; apply chronological_last|done].
  by apply StronglySorted_lt_NoDup.
Qed.

End WindowInvariant.

(** C9, witness: the window [t=1, t=2] and the newest-first array
    [t=3, t=2(revised)] under the default size. *)
Lemma GetRecords_keeps_window_invariant_witness :
  let after :=
    self (@GetRecords (replying (JArray [bar3; bar2rev])) "BTC" "M" [] world12).2 in
  Z.of_nat (length (window after "M")) ≤ recordsSize [] ∧
  chronological (window after "M") ∧
  NoDup (Time <$> window after "M") ∧
  (∀ r, r ∈ window after "M" → Time r ≤ timeLastOf (window after "M")) ∧
  (∀ q, q ≠ "M" → window after q = window (self world12) q).
Proof.
  apply (@GetRecords_keeps_window_invariant (replying (JArray [bar3; bar2rev]))
           "BTC" "M" [] world12).
  - intros body json _ Hjson. injection Hjson as <-.
    intros a b ja jb ta tb Hab Ha Hb Hta Htb _ _.
    destruct a as [|[|a]], b as [|[|b]]; simpl in Ha, Hb; try lia; try done.
    injection Ha as <-. injection Hb as <-.
    vm_compute in Hta, Htb. injection Hta as <-. injection Htb as <-. lia.
  - unfold chronological. simpl. repeat constructor.
  - vm_compute. discriminate.
Defined.

(** C9, as stated, fails: on the first call an array in oldest-first order
    [t=1, t=2] is appended from its last element, which leaves the window
    [t=2, t=1]: not in increasing time, and its last bar is not the
    latest. *)
Lemma GetRecords_oldest_first_breaks_order :
  let after :=
    self (@GetRecords (replying (JArray [bar1; bar2])) "BTC" "M" [] world0).2 in
  chronological (window (self world0) "M") ∧
  Z.of_nat (length (window (self world0) "M")) ≤ recordsSize [] ∧
  window after "M" = [candle2; candle1] ∧
  ¬ chronological (window after "M") ∧
  ¬ (∀ r, r ∈ window after "M" → Time r ≤ timeLastOf (window after "M")).
Proof.
  assert (window (self (@GetRecords (replying (JArray [bar1; bar2]))
                          "BTC" "M" [] world0).2) "M" = [candle2; candle1]) as E.
  { reflexivity. }
  simpl. rewrite E. split_and!.
  - constructor.
  - vm_compute. discriminate.
  - done.
  - intros Hc. apply (chronological_last _ candle2) in Hc; [|set_solver].
    vm_compute in Hc. done.
  - intros Hlast. specialize (Hlast candle2). vm_compute in Hlast.
    apply Hlast; [|done]. set_solver.
Qed.

(** ** The signer and the authenticated operations *)

Section Authenticated.
Context `{Collaborators}.

(** What [getAuthJSON] sends and returns. *)
Lemma getAuthJSON_run url params optionals (w : World) :
  let signed :=
    signedParams (AccessKey (option_ (self w))) (SecretKey (option_ (self w)))
      (unixNow w) params ++ optionals in
  getAuthJSON url params optionals w =
  (Returned match post url signed with
            | Failure err => Failure err
            | Success body => NewJson body
            end,
   posted url signed w).
Proof.
  simpl. unfold getAuthJSON, httpPost, posted. run_monad.
  by destruct (post url _).
Qed.

Lemma strLe_total : base.Total strLe.
Proof. intros a b. apply String.leb_total. Qed.

(** C8: the signer appends access_key, secret_key and created to the
    parameters, sorts the whole set as strings, hashes the sorted parameters
    and puts sign=<signature> last; the request carries that list before the
    optionals; and two runs with the same unsigned parameters, the same
    credentials and the same created timestamp post the same parameters and
    return the same result, whatever else differs between their worlds. *)
Theorem getAuthJSON_signs_deterministically :
  (∀ accessKey secretKey created params,
     let unsigned := params ++ ["access_key=" +:+ accessKey;
                                "secret_key=" +:+ secretKey;
                                "created=" +:+ sprintInt created] in
     let signed := signedParams accessKey secretKey created params in
     signed = sortStrings unsigned ++ ["sign=" +:+ signMd5 (sortStrings unsigned)] ∧
     Sorted strLe (sortStrings unsigned) ∧
     sortStrings unsigned ≡ₚ unsigned ∧
     last signed = Some ("sign=" +:+ signMd5 (sortStrings unsigned))) ∧
  (∀ url params optionals w,
     wire (getAuthJSON url params optionals w).2 =
     wire w ++ [POST url (signedParams (AccessKey (option_ (self w)))
                            (SecretKey (option_ (self w))) (unixNow w) params
                          ++ optionals)]) ∧
  (∀ url params optionals w1 w2,
     AccessKey (option_ (self w1)) = AccessKey (option_ (self w2)) →
     SecretKey (option_ (self w1)) = SecretKey (option_ (self w2)) →
     unixNow w1 = unixNow w2 →
     last (wire (getAuthJSON url params optionals w1).2) =
     last (wire (getAuthJSON url params optionals w2).2) ∧
     (getAuthJSON url params optionals w1).1 =
     (getAuthJSON url params optionals w2).1).
Proof.
  split_and!.
  - intros accessKey secretKey created params unsigned signed.
    subst signed. unfold signedParams. fold unsigned. split_and!.
    + done.
    + apply Sorted_merge_sort, strLe_total.
    + apply merge_sort_Permutation.
    + apply last_snoc.
  - intros url params optionals w. by rewrite getAuthJSON_run.
  - intros url params optionals w1 w2 Hak Hsk Hnow.
    rewrite !getAuthJSON_run. unfold posted. simpl.
    rewrite !last_snoc, Hak, Hsk, Hnow. done.
Qed.

End Authenticated.

(** C8, witness: two worlds with the same credentials and clock, one with a
    window and a history on the wire, post the same signed parameters. *)
Lemma getAuthJSON_signs_deterministically_witness :
  let w1 := startWorld demoHuobi 1500000000 in
  let w2 := startWorld (withWindow "M" [candle1] demoHuobi) 1500000000 in
  last (wire (@getAuthJSON (replying JNull) "u" ["method=x"; "coin_type=1"] []
                (posted "u" [] w1)).2) =
  last (wire (@getAuthJSON (replying JNull) "u" ["method=x"; "coin_type=1"] [] w2).2).
Proof.
  intros w1 w2.
  apply (proj2 (proj2 (@getAuthJSON_signs_deterministically (replying JNull)))
           "u" ["method=x"; "coin_type=1"] [] (posted "u" [] w1) w2);
    reflexivity.
Defined.

(** ** Vendor status codes *)

Section StatusCode.
Context `{Collaborators}.



End StatusCode.



(** ** Validation of symbols *)

Section Validation.
Context `{Collaborators}.

(** The operations that test their symbol give up on an unrecognised one
    before any request is sent. *)
Lemma unrecognized_stock_short_circuits (w : World) stockType :
  stockMap (self w) !! stockType = None →
  (∀ price amount msgs,
     failed "" (Buy stockType price amount msgs w) w ∧
     wire (Buy stockType price amount msgs w).2 = wire w) ∧
  (∀ price amount msgs,
     failed "" (Sell stockType price amount msgs w) w ∧
     wire (Sell stockType price amount msgs w).2 = wire w) ∧
  (failed [] (GetOrders stockType w) w ∧
   wire (GetOrders stockType w).2 = wire w) ∧
  (failed [] (GetTrades stockType w) w ∧
   wire (GetTrades stockType w).2 = wire w) ∧
  (∀ sizes, failed None (GetTicker stockType sizes w) w ∧
            wire (GetTicker stockType sizes w).2 = wire w) ∧
  (∀ period sizes, failed [] (GetRecords stockType period sizes w) w ∧
                   wire (GetRecords stockType period sizes w).2 = wire w).
Proof.
  intros Hnone.
  split_and!; intros;
    unfold failed, Buy, Sell, trade, GetOrders, GetTrades, listOrders,
      GetTicker, GetRecords;
    run_monad; rewrite Hnone; simpl; eauto.
Qed.

(** GetRecords gives up on an unrecognised timeframe in the same way. *)
Lemma unrecognized_period_short_circuits (w : World) stockType period sizes :
  periodMap (self w) !! period = None →
  failed [] (GetRecords stockType period sizes w) w ∧
  wire (GetRecords stockType period sizes w).2 = wire w.
Proof.
  intros Hnone. unfold failed, GetRecords. run_monad.
  destruct (stockMap (self w) !! stockType); rewrite ?Hnone; simpl; eauto.
Qed.

(** C6: GetOrder and CancelOrder do not test their symbol.  On the symbol
    "DOGE", which the adapter does not support, each of them sends one signed
    POST with an empty coin_type, where the claim asks for no network call;
    Buy on the same symbol sends nothing and reports the error. *)
Theorem GetOrder_CancelOrder_post_unrecognized_stock (id : string) (order : Order) :
  StockType order = "DOGE" →
  stockMap (self world0) !! "DOGE" = None ∧
  wire (GetOrder "DOGE" id world0).2 =
    [POST "https://api.huobi.com/apiv3"
       (signedParams "ak" "sk" 0 ["method=order_info"; "coin_type="; "id=" +:+ id]
        ++ ["market=cny"])] ∧
  wire (CancelOrder order world0).2 =
    [POST "https://api.huobi.com/apiv3"
       (signedParams "ak" "sk" 0
          ["method=cancel_order"; "coin_type="; "id=" +:+ ID order]
        ++ ["market=cny"])] ∧
  (∀ price amount msgs, wire (Buy "DOGE" price amount msgs world0).2 = []).
Proof.
  intros Hstock.
  assert (stockMap (self world0) !! "DOGE" = None) as Hnone by reflexivity.
  split_and!; [done| | |].
  - unfold GetOrder. run_monad. rewrite getAuthJSON_run. unfold stockCode.
    rewrite Hnone. simpl.
    destruct (post _ _) as [body|err]; simpl; [|done].
    destruct (NewJson body) as [json|err]; simpl; [|done].
    by destruct (0 <? codeOf json).
  - unfold CancelOrder. run_monad. rewrite getAuthJSON_run. unfold stockCode.
    rewrite Hstock, Hnone. simpl.
    destruct (post _ _) as [body|err]; simpl; [|done].
    destruct (NewJson body) as [json|err]; simpl; [|done].
    destruct (0 <? codeOf json); simpl; [done|].
    by destruct (String.eqb _ _).
  - intros price amount msgs.
    apply (unrecognized_stock_short_circuits world0 "DOGE" Hnone).
Qed.

End Validation.

(** C6, witness: the order 7 on the unsupported symbol. *)
Lemma GetOrder_CancelOrder_post_unrecognized_stock_witness :
  wire (@GetOrder (replying JNull) "DOGE" "7" world0).2 =
    [POST "https://api.huobi.com/apiv3"
       (@signedParams (replying JNull) "ak" "sk" 0
          ["method=order_info"; "coin_type="; "id=7"] ++ ["market=cny"])].
Proof.
  apply (@GetOrder_CancelOrder_post_unrecognized_stock (replying JNull) "7"
           dogeOrder eq_refl).
Defined.

(** ** The depth size of GetTicker *)

Section TickerSize.
Context `{Collaborators}.

(** With a recognised symbol GetTicker sends exactly one GET, for the depth
    [tickerSize sizes]. *)
Lemma GetTicker_wire stockType sizes (w : World) :
  is_Some (stockMap (self w) !! stockType) →
  wire (GetTicker stockType sizes w).2 =
  wire w ++ [GET (tickerURL stockType (tickerSize sizes))].
Proof.
  intros [c Hs]. unfold GetTicker, httpGet. run_monad. rewrite Hs. simpl.
  destruct (get _) as [body|err]; simpl; [|done].
  destruct (NewJson body) as [json|err]; simpl; [|done].
  by destruct (marketOrders (Get "bids" json)), (marketOrders (Get "asks" json)).
Qed.

Lemma tickerURL_20 stockType :
  tickerURL stockType 20 =
  "http://api.huobi.com/staticmarket/depth_" +:+ ToLower stockType +:+ "_20.js".
Proof. reflexivity. Qed.

(** C10: the size argument of GetTicker counts only when it is strictly
    greater than 20.  A call on a recognised symbol with no size argument, or
    with a first size argument of 20 or less, sends its one request for the
    depth 20, whatever was asked; with a first size argument above 20 it asks
    for that size. *)
Theorem GetTicker_size_at_least_20 stockType sizes (w : World) :
  is_Some (stockMap (self w) !! stockType) →
  ((sizes = [] ∨ ∃ s rest, sizes = s :: rest ∧ s ≤ 20) →
   tickerSize sizes = 20 ∧
   wire (GetTicker stockType sizes w).2 =
   wire w ++ [GET ("http://api.huobi.com/staticmarket/depth_"
                     +:+ ToLower stockType +:+ "_20.js")]) ∧
  (∀ s rest, sizes = s :: rest → 20 < s →
   tickerSize sizes = s ∧
   wire (GetTicker stockType sizes w).2 =
   wire w ++ [GET ("http://api.huobi.com/staticmarket/depth_"
                     +:+ ToLower stockType +:+ "_" +:+ sprintInt s +:+ ".js")]).
Proof.
  intros Hs. split.
  - intros Hsmall.
    assert (tickerSize sizes = 20) as Hsize.
    { destruct Hsmall as [->|(s & rest & -> & Hle)]; [done|].
      simpl. destruct (Z.ltb_spec 20 s); [lia|done]. }
    split; [done|]. by rewrite GetTicker_wire, Hsize, tickerURL_20.
  - intros s rest -> Hlt.
    assert (tickerSize (s :: rest) = s) as Hsize.
    { simpl. destruct (Z.ltb_spec 20 s); [done|lia]. }
    split; [done|]. by rewrite GetTicker_wire, Hsize.
Qed.

End TickerSize.

(** C10, witness: a ticker asked with the depth 5 is fetched with the
    depth 20. *)
Lemma GetTicker_size_at_least_20_witness :
  tickerSize [5] = 20 ∧
  wire (@GetTicker (replying JNull) "BTC" [5] world0).2 =
  [GET "http://api.huobi.com/staticmarket/depth_btc_20.js"].
Proof.
  apply (proj1 (@GetTicker_size_at_least_20 (replying JNull) "BTC" [5] world0
                  (ex_intro _ "1" eq_refl))).
  right. exists 5, []. split; [reflexivity|]. vm_compute. discriminate.
Defined.

(** * Further properties of the adapter *)

(** ** What GetRecords does to a window *)

(** The loop leaves the window as it was, or with a last bar of the same
    time in place of the last one. *)
Lemma mergeLoop_shape json i win rn :
  (mergeLoop json i (timeLastOf win) win rn).1 = win ∨
  ∃ w0 r r', win = w0 ++ [r] ∧
             (mergeLoop json i (timeLastOf win) win rn).1 = w0 ++ [r'] ∧
             Time r' = Time r.
Proof.
  revert win rn. induction i as [|i IH]; intros win rn; [by left|].
  destruct (nil_or_snoc win) as [->|(w0 & r & ->)].
  - left. rewrite mergeLoop_nil.
    destruct (recordTime (GetIndex i json)) as [t|]; [|done].
    destruct (timeLastOf [] <? t).
    + pose proof (mergeLoop_length json i [] (rn ++ [recordOf t (GetIndex i json)]))
        as Hlen.
      by destruct (mergeLoop json i _ _ _).1.
    + by destruct (t =? timeLastOf []).
  - rewrite mergeLoop_snoc.
    destruct (recordTime (GetIndex i json)) as [t|]; [|by left].
    destruct (timeLastOf (w0 ++ [r]) <? t); [apply IH|].
    destruct (t =? timeLastOf (w0 ++ [r])) eqn:E; [|by left].
    apply Z.eqb_eq in E. rewrite timeLastOf_snoc in E. right.
    assert (timeLastOf (w0 ++ [r]) =
            timeLastOf (w0 ++ [recordOf t (GetIndex i json)])) as ->.
    { by rewrite !timeLastOf_snoc. }
    destruct (IH (w0 ++ [recordOf t (GetIndex i json)]) rn)
      as [->|(w1 & r1 & r1' & Hw & -> & Ht)].
    + by exists w0, r, (recordOf t (GetIndex i json)).
    + apply app_inj_tail in Hw as [<- <-]. exists w0, r, r1'.
      split_and!; [done..|]. by rewrite Ht.
Qed.

(** A bar held by the window before the loop is held at the same place
    after it, under the same time, and unchanged unless it is the last. *)
Lemma mergeLoop_lookup json i win rn (k : nat) (r : Record) :
  win !! k = Some r →
  ∃ r', (mergeLoop json i (timeLastOf win) win rn).1 !! k = Some r' ∧
        Time r' = Time r ∧ ((S k < length win)%nat → r' = r).
Proof.
  intros Hk. destruct (mergeLoop_shape json i win rn)
    as [->|(w0 & x & x' & -> & -> & Ht)]; [eauto|].
  destruct (decide (k < length w0)%nat) as [Hlt|Hge].
  - rewrite lookup_app_l in Hk |- * by done. eauto.
  - rewrite lookup_app_r in Hk |- * by lia.
    destruct (k - length w0)%nat as [|n] eqn:E; simpl in *; [|done].
    injection Hk as <-. exists x'. split_and!; [done..|].
    rewrite length_app. simpl. lia.
Qed.

(** The window [reconcile] leaves is a front part of the window after the
    loop followed by some new bars. *)
Lemma reconcile_after (p : string) (json : Json) (size : Z) (w : World) :
  ∃ (n : nat) rn,
    window (self (reconcile p json size w).2) p =
    take n ((mergeLoop json (length (MustArray json))
               (timeLastOf (window (self w) p)) (window (self w) p) []).1 ++ rn).
Proof.
  pose proof (reconcile_spec p json size w) as Hspec.
  destruct (mergeLoop json _ _ _ _) as [win1 [rn|msg]];
    specialize (Hspec _ _ eq_refl); simpl in *.
  - destruct (size <? _).
    + destruct (size <? 0).
      * exists (length (win1 ++ rn)), rn. rewrite firstn_all. by destruct Hspec.
      * exists (Z.to_nat size), rn. by destruct Hspec.
    + exists (length (win1 ++ rn)), rn. rewrite firstn_all. by destruct Hspec.
  - exists (length win1), []. rewrite app_nil_r, firstn_all. by destruct Hspec.
Qed.

Section RecordsHistory.
Context `{Collaborators}.

(** X1: no GetRecords call, whatever the vendor answers and whether it
    returns or panics, moves or re-dates a bar the window holds: a bar at
    position [k] is cut off or still at position [k] under the same
    timestamp, and every bar but the last one is kept as it was. *)
Theorem GetRecords_keeps_history stockType period sizes (w : World)
    (k : nat) (r : Record) :
  window (self w) period !! k = Some r →
  let after := window (self (GetRecords stockType period sizes w).2) period in
  after !! k = None ∨
  ∃ r', after !! k = Some r' ∧ Time r' = Time r ∧
        ((S k < length (window (self w) period))%nat → r' = r).
Proof.
  intros Hk after. subst after.
  destruct (GetRecords_cases stockType period sizes w)
    as [[_ ->]|(body & json & _ & _ & ->)]; [right; eauto|].
  destruct (reconcile_after period json (recordsSize sizes)
              (fetched (self w) stockType period w)) as (n & rn & ->).
  simpl self.
  destruct (mergeLoop_lookup json (length (MustArray json)) _ [] k r Hk)
    as (r' & Hk' & Ht & Hsame).
  destruct (decide (k < n)%nat) as [Hlt|Hge].
  - right. exists r'. split_and!; [|done..].
    rewrite lookup_take_lt by done.
    by rewrite lookup_app_l by (by eapply lookup_lt_Some).
  - left. apply lookup_take_ge. lia.
Qed.

(** X2: once the window of a timeframe holds as many bars as the size of the
    call, GetRecords never brings a new bar into it: whatever the vendor
    answers, the window keeps its length and its timestamps. *)
Theorem GetRecords_full_window_is_frozen stockType period sizes (w : World) :
  Z.of_nat (length (window (self w) period)) = recordsSize sizes →
  let after := window (self (GetRecords stockType period sizes w).2) period in
  Time <$> after = Time <$> window (self w) period.
Proof.
  intros Hfull after. subst after.
  destruct (GetRecords_cases stockType period sizes w)
    as [[_ ->]|(body & json & _ & _ & ->)]; [done|].
  pose proof (reconcile_spec period json (recordsSize sizes)
                (fetched (self w) stockType period w)) as Hspec.
  pose proof (mergeLoop_times json (length (MustArray json))
                (window (self w) period) []) as Htimes.
  simpl self in *.
  destruct (mergeLoop json _ _ _ _) as [win1 [rn|msg]];
    specialize (Hspec _ _ eq_refl); simpl in *; cycle 1.
  { destruct Hspec as [_ ->]. done. }
  assert (length win1 = length (window (self w) period)) as Hlen.
  { by rewrite <- (length_fmap Time), Htimes, length_fmap. }
  destruct (Z.ltb_spec (recordsSize sizes) (Z.of_nat (length (win1 ++ rn)))).
  - destruct (Z.ltb_spec (recordsSize sizes) 0); [lia|].
    destruct Hspec as [_ ->].
    replace (Z.to_nat (recordsSize sizes)) with (length win1) by lia.
    by rewrite take_app_length.
  - destruct Hspec as [_ ->]. rewrite length_app in *.
    destruct rn; [|simpl in *; lia]. by rewrite app_nil_r.
Qed.

End RecordsHistory.

(** X1, witness: the first bar of [t=1, t=2] under a merge that revises the
    last bar and appends one. *)
Lemma GetRecords_keeps_history_witness :
  let after :=
    window (self (@GetRecords (replying (JArray [bar1; bar2rev; bar3]))
                    "BTC" "M" [] world12).2) "M" in
  after !! 0%nat = None ∨
  ∃ r', after !! 0%nat = Some r' ∧ Time r' = Time candle1 ∧
        ((1 < length (window (self world12) "M"))%nat → r' = candle1).
Proof.
  apply (@GetRecords_keeps_history (replying (JArray [bar1; bar2rev; bar3]))
           "BTC" "M" [] world12 0%nat candle1).
  reflexivity.
Defined.

(** X2, witness: the window [t=1, t=2] under the size 2 and a new bar
    t=3. *)
Lemma GetRecords_full_window_is_frozen_witness :
  Time <$> window (self (@GetRecords (replying (JArray [bar3]))
                           "BTC" "M" [2] world12).2) "M" =
  Time <$> window (self world12) "M".
Proof.
  apply (@GetRecords_full_window_is_frozen (replying (JArray [bar3]))
           "BTC" "M" [2] world12).
  reflexivity.
Defined.

(** ** What GetRecords returns, and when it panics *)

(** What [reconcile] keeps, prints and returns. *)
Lemma reconcile_effects (p : string) (json : Json) (size : Z) (w : World) :
  let res := reconcile p json size w in
  sameSettings (self w) (self res.2) ∧
  ∀ recs, res.1 = Returned recs →
          recs = window (self res.2) p ∧
          console res.2 = console w ++ [sprintInt (Z.of_nat (length recs))] ∧
          Z.of_nat (length recs) ≤ size.
Proof.
  simpl. unfold reconcile. run_monad.
  destruct (mergeLoop json _ _ _ _) as [win [recordsNew|msg]]; simpl;
    [|by split; [|intros ? [=]]].
  set (merged := window (setRecords _ _) p ++ recordsNew).
  destruct (Z.ltb_spec size (Z.of_nat (length merged))) as [Hcut|Hfit]; simpl.
  - destruct (Z.ltb_spec size 0); simpl; [by split; [|intros ? [=]]|].
    split; [done|]. intros recs [= <-]. unfold window. simpl.
    rewrite !lookup_insert_eq. simpl. split_and!; [done..|].
    rewrite length_take. lia.
  - split; [done|]. intros recs [= <-]. unfold window. simpl.
    rewrite !lookup_insert_eq. simpl. split_and!; [done..|]. lia.
Qed.

Section RecordsResult.
Context `{Collaborators}.

(** X3: GetRecords never changes the code tables, the host or the
    configuration of the adapter and sends at most its one GET; and when it
    returns, either it gave up (empty result, one error logged, every window
    untouched), or the result is exactly the window it now holds for the
    timeframe, not longer than the size of the call, with nothing logged and
    its length printed. *)
Theorem GetRecords_result stockType period sizes (w : World) :
  let res := GetRecords stockType period sizes w in
  sameSettings (self w) (self res.2) ∧
  (wire res.2 = wire w ∨
   wire res.2 = wire w ++ [GET (recordsURL (self w) stockType period)]) ∧
  ∀ recs, res.1 = Returned recs →
    (failed [] res w ∧ ∀ q, window (self res.2) q = window (self w) q) ∨
    (recs = window (self res.2) period ∧ journal res.2 = journal w ∧
     console res.2 = console w ++ [sprintInt (Z.of_nat (length recs))] ∧
     Z.of_nat (length recs) ≤ recordsSize sizes).
Proof.
  simpl.
  destruct (stockMap (self w) !! stockType) as [c|] eqn:Hs; cycle 1.
  { unfold failed, GetRecords. run_monad. rewrite Hs. simpl.
    split_and!; [done|by left|]. intros recs _. left. eauto. }
  destruct (periodMap (self w) !! period) as [c'|] eqn:Hp; cycle 1.
  { unfold failed, GetRecords. run_monad. rewrite Hs, Hp. simpl.
    split_and!; [done|by left|]. intros recs _. left. eauto. }
  destruct (get (recordsURL (self w) stockType period)) as [body|err] eqn:Hget;
    cycle 1.
  { unfold failed, GetRecords, httpGet. run_monad. rewrite Hs, Hp, Hget. simpl.
    split_and!; [done|by right|]. intros recs _. left. eauto. }
  destruct (NewJson body) as [json|err] eqn:Hjson; cycle 1.
  { unfold failed, GetRecords, httpGet. run_monad.
    rewrite Hs, Hp, Hget, Hjson. simpl.
    split_and!; [done|by right|]. intros recs _. left. eauto. }
  rewrite (GetRecords_merges stockType period sizes w body json) by eauto.
  destruct (reconcile_effects period json (recordsSize sizes)
              (fetched (self w) stockType period w)) as [Hsame Hret].
  destruct (reconcile_frame period json (recordsSize sizes)
              (fetched (self w) stockType period w)) as (_ & Hwire & Hlog).
  split_and!; [done|right; by rewrite Hwire|].
  intros recs Hrecs. right. destruct (Hret recs Hrecs) as (? & ? & ?).
  by rewrite Hlog.
Qed.

(** X4: a negative size argument makes GetRecords panic whenever the
    response decodes: the cut [[:size]] is out of range for every window. *)
Theorem GetRecords_negative_size_panics stockType period sizes (w : World)
    body json :
  is_Some (stockMap (self w) !! stockType) →
  is_Some (periodMap (self w) !! period) →
  get (recordsURL (self w) stockType period) = Success body →
  NewJson body = Success json →
  recordsSize sizes < 0 →
  ∃ msg, (GetRecords stockType period sizes w).1 = Panicked msg.
Proof.
  intros Hs Hp Hget Hjson Hneg.
  rewrite (GetRecords_merges _ _ _ _ _ _ Hs Hp Hget Hjson).
  pose proof (reconcile_spec period json (recordsSize sizes)
                (fetched (self w) stockType period w)) as Hspec.
  destruct (mergeLoop json _ _ _ _) as [win1 [rn|msg]];
    specialize (Hspec _ _ eq_refl); simpl in Hspec.
  - destruct (Z.ltb_spec (recordsSize sizes) (Z.of_nat (length (win1 ++ rn))));
      [|lia].
    destruct (Z.ltb_spec (recordsSize sizes) 0); [|lia].
    destruct Hspec as [-> _]. eauto.
  - destruct Hspec as [-> _]. eauto.
Qed.

(** X5: on a timeframe with no bar yet, a response whose last bar has a
    stamp that reads as 0 makes GetRecords panic on the empty slice, before
    any bar is stored. *)
Theorem GetRecords_zero_stamp_panics stockType period sizes (w : World)
    body (l : list Json) (j : Json) :
  is_Some (stockMap (self w) !! stockType) →
  is_Some (periodMap (self w) !! period) →
  get (recordsURL (self w) stockType period) = Success body →
  NewJson body = Success (JArray (l ++ [j])) →
  window (self w) period = [] →
  recordTime j = Some 0 →
  let res := GetRecords stockType period sizes w in
  res.1 = Panicked "index out of range [-1]" ∧
  ∀ q, window (self res.2) q = window (self w) q.
Proof.
  intros Hs Hp Hget Hjson Hwin Hzero res. subst res.
  rewrite (GetRecords_merges _ _ _ _ _ _ Hs Hp Hget Hjson).
  pose proof (reconcile_spec period (JArray (l ++ [j])) (recordsSize sizes)
                (fetched (self w) stockType period w)) as Hspec.
  simpl self in Hspec. rewrite Hwin in Hspec. simpl MustArray in Hspec.
  specialize (Hspec [] (Panicked "index out of range [-1]")).
  rewrite length_app in Hspec. simpl length in Hspec.
  replace (length l + 1)%nat with (S (length l)) in Hspec by lia.
  rewrite mergeLoop_nil, (GetIndex_at l 0 _ _ j), Hzero in Hspec by (lia || done).
  specialize (Hspec eq_refl). simpl in Hspec. destruct Hspec as [-> Hafter].
  split; [done|]. intros q. destruct (decide (q = period)) as [->|Hq].
  - by rewrite Hafter, Hwin.
  - by apply (reconcile_frame period (JArray (l ++ [j])) (recordsSize sizes)
                (fetched (self w) stockType period w)).
Qed.

End RecordsResult.

(** X4, witness: the size -1 on an empty response. *)
Lemma GetRecords_negative_size_panics_witness :
  ∃ msg, (@GetRecords (replying (JArray [])) "BTC" "M" [-1] world12).1 =
         Panicked msg.
Proof.
  apply (@GetRecords_negative_size_panics (replying (JArray []))
           "BTC" "M" [-1] world12 "" (JArray []));
    [ vm_compute; eauto | vm_compute; eauto | reflexivity | reflexivity
    | reflexivity ].
Defined.

(** X5, witness: the first call, answered with one bar stamped
    000000000000. *)
Lemma GetRecords_zero_stamp_panics_witness :
  (@GetRecords (replying (JArray [bar "000000000000" 1 1 1 1 1]))
     "BTC" "M" [] world0).1 = Panicked "index out of range [-1]" ∧
  ∀ q, window (self (@GetRecords (replying (JArray [bar "000000000000" 1 1 1 1 1]))
                       "BTC" "M" [] world0).2) q = window (self world0) q.
Proof.
  apply (@GetRecords_zero_stamp_panics
           (replying (JArray [bar "000000000000" 1 1 1 1 1]))
           "BTC" "M" [] world0 "" [] (bar "000000000000" 1 1 1 1 1));
    [ vm_compute; eauto | vm_compute; eauto | reflexivity | reflexivity
    | reflexivity | reflexivity ].
Defined.

(** ** Polling again *)

(** On the window a first call built from a newest-first array, the walk
    over the same array changes nothing: it meets the oldest bar first and
    stops, or, with one bar only, rewrites that bar with itself. *)
Lemma mergeLoop_repoll (l : list Json) (rs : list Record) :
  Forall2 (λ j r, decoded j = Some r) l rs →
  StronglySorted (λ a b, Time b < Time a) rs →
  mergeLoop (JArray l) (length l) (timeLastOf (reverse rs)) (reverse rs) [] =
  (reverse rs, Returned []).
Proof.
  intros Hall Hsorted.
  destruct (nil_or_snoc l) as [->|(l' & j & ->)].
  { by apply Forall2_nil_inv_l in Hall as ->. }
  apply Forall2_app_inv_l in Hall as (rs' & rs1 & Hall' & Hj & ->).
  apply Forall2_cons_inv_l in Hj as (r & rs2 & Hdec & Hnil & ->).
  apply Forall2_nil_inv_l in Hnil as ->.
  unfold decoded in Hdec.
  destruct (recordTime j) as [t|] eqn:Ht; [|done]. simpl in Hdec.
  injection Hdec as <-.
  rewrite length_app. simpl length.
  replace (length l' + 1)%nat with (S (length l')) by lia.
  destruct rs' as [|r0 rs''].
  - apply Forall2_nil_inv_r in Hall' as ->. simpl app.
    change (reverse [recordOf t j]) with ([] ++ [recordOf t j]).
    rewrite timeLastOf_snoc, mergeLoop_snoc. simpl.
    rewrite Ht. simpl. by rewrite Z.ltb_irrefl, Z.eqb_refl.
  - assert (reverse ((r0 :: rs'') ++ [recordOf t j]) =
            reverse (rs'' ++ [recordOf t j]) ++ [r0]) as -> by apply reverse_cons.
    rewrite timeLastOf_snoc, mergeLoop_snoc.
    rewrite (GetIndex_at l' 0 _ _ j), Ht by (lia || done).
    simpl in Hsorted. apply StronglySorted_inv in Hsorted as [_ Hlt].
    rewrite Forall_forall in Hlt.
    assert (t < Time r0) as Hold.
    { apply (Hlt (recordOf t j)). apply elem_of_app. right. set_solver. }
    destruct (Z.ltb_spec (Time r0) t); [lia|].
    destruct (Z.eqb_spec t (Time r0)); [lia|]. done.
Qed.

Section Repoll.
Context `{Collaborators}.

(** X6: after a first call that built the window from a newest-first
    response (strictly decreasing, positive timestamps, not more bars than
    the size), a second call answered with the same response returns the
    same bars and leaves the window as the first call left it. *)
Theorem GetRecords_repoll_is_idle stockType period sizes (w : World) body
    (l : list Json) (rs : list Record) :
  is_Some (stockMap (self w) !! stockType) →
  is_Some (periodMap (self w) !! period) →
  get (recordsURL (self w) stockType period) = Success body →
  NewJson body = Success (JArray l) →
  window (self w) period = [] →
  Forall2 (λ j r, decoded j = Some r ∧ 0 < Time r) l rs →
  StronglySorted (λ a b, Time b < Time a) rs →
  Z.of_nat (length l) ≤ recordsSize sizes →
  let first := GetRecords stockType period sizes w in
  let again := GetRecords stockType period sizes first.2 in
  first.1 = Returned (reverse rs) ∧
  again.1 = first.1 ∧
  window (self again.2) period = window (self first.2) period.
Proof.
  intros Hs Hp Hget Hjson Hwin Hall Hsorted Hsize first again.
  pose proof (Forall2_length _ _ _ Hall) as Hlen.
  assert (first.1 = Returned (reverse rs) ∧
          window (self first.2) period = reverse rs ∧
          sameSettings (self w) (self first.2)) as (Hret & Hwin1 & Hsame).
  { subst first again. rewrite (GetRecords_merges _ _ _ _ _ _ Hs Hp Hget Hjson).
    pose proof (reconcile_spec period (JArray l) (recordsSize sizes)
                  (fetched (self w) stockType period w)) as Hspec.
    simpl self in Hspec. rewrite Hwin in Hspec. simpl MustArray in Hspec.
    specialize (Hspec [] (Returned (reverse rs))).
    rewrite (mergeLoop_all_newer l _ _ _ rs) in Hspec;
      [|by rewrite firstn_all|done].
    specialize (Hspec eq_refl). cbv beta iota zeta in Hspec.
    simpl app in Hspec. rewrite length_reverse in Hspec.
    destruct (Z.ltb_spec (recordsSize sizes) (Z.of_nat (length rs))); [lia|].
    destruct Hspec as [-> ->]. split_and!; [done..|].
    apply (reconcile_effects period (JArray l) (recordsSize sizes)
             (fetched (self w) stockType period w)). }
  destruct Hsame as (Hsm & _ & Hpm & _ & _).
  assert (Forall2 (λ j r, decoded j = Some r) l rs) as Hall'.
  { eapply Forall2_impl; [exact Hall|]. by intros j r [? _]. }
  assert (recordsURL (self first.2) stockType period =
          recordsURL (self w) stockType period) as Hurl.
  { unfold recordsURL, periodCode. by rewrite Hpm. }
  split_and!; [done| |]; subst again;
    rewrite (GetRecords_merges stockType period sizes first.2 body (JArray l))
      by (by rewrite ?Hsm, ?Hpm, ?Hurl);
    pose proof (reconcile_spec period (JArray l) (recordsSize sizes)
                  (fetched (self first.2) stockType period first.2)) as Hspec;
    simpl self in Hspec; rewrite Hwin1 in Hspec; simpl MustArray in Hspec;
    specialize (Hspec _ _ (mergeLoop_repoll l rs Hall' Hsorted));
    cbv beta iota zeta in Hspec; rewrite app_nil_r, length_reverse in Hspec;
    (destruct (Z.ltb_spec (recordsSize sizes) (Z.of_nat (length rs))); [lia|]);
    destruct Hspec as [E1 E2]; by rewrite ?E1, ?E2, ?Hret, ?Hwin1.
Qed.

End Repoll.

(** X6, witness: two calls answered with [t=3],[t=2],[t=1]. *)
Lemma GetRecords_repoll_is_idle_witness :
  let first := @GetRecords (replying (JArray [bar3; bar2; bar1])) "BTC" "M" [] world0 in
  let again := @GetRecords (replying (JArray [bar3; bar2; bar1])) "BTC" "M" [] first.2 in
  first.1 = Returned [candle1; candle2; candle3] ∧
  again.1 = first.1 ∧
  window (self again.2) "M" = window (self first.2) "M".
Proof.
  apply (@GetRecords_repoll_is_idle (replying (JArray [bar3; bar2; bar1]))
           "BTC" "M" [] world0 "" [bar3; bar2; bar1] [candle3; candle2; candle1]);
    [ vm_compute; eauto | vm_compute; eauto | reflexivity | reflexivity
    | reflexivity | repeat constructor | repeat constructor
    | vm_compute; discriminate ].
Defined.

(** ** The signed parameter list *)

Lemma strLe_trans : Transitive strLe.
Proof.
  unfold strLe, String.leb. intros a. induction a as [|ca a IH];
    intros [|cb b] [|cc c]; simpl; try done.
  unfold Ascii.compare.
  destruct (N.compare_spec (N_of_ascii ca) (N_of_ascii cb)) as [Eab|Hab|Hab];
    destruct (N.compare_spec (N_of_ascii cb) (N_of_ascii cc)) as [Ebc|Hbc|Hbc];
    destruct (N.compare_spec (N_of_ascii ca) (N_of_ascii cc)) as [Eac|Hac|Hac];
    try done; try lia.
  apply IH.
Qed.

Lemma strLe_antisym : AntiSymm eq strLe.
Proof. intros a b. apply String.leb_antisym. Qed.

Lemma sortStrings_Permutation (l k : list string) :
  l ≡ₚ k → sortStrings l = sortStrings k.
Proof.
  intros Hperm.
  apply (@Sorted_unique _ strLe strLe_trans strLe_antisym);
    [apply Sorted_merge_sort, strLe_total..|].
  unfold sortStrings. by rewrite !merge_sort_Permutation.
Qed.

Section Signer.
Context `{Collaborators}.

(** X7: the signed list does not depend on the order in which the caller
    lists the unsigned parameters: sorting makes it canonical, so two
    orderings of the same parameters get the same signature and the same
    list. *)
Theorem signedParams_order_independent accessKey secretKey created
    (params params' : list string) :
  params ≡ₚ params' →
  signedParams accessKey secretKey created params =
  signedParams accessKey secretKey created params'.
Proof.
  intros Hperm. unfold signedParams.
  by rewrite (sortStrings_Permutation
                (params ++ ["access_key=" +:+ accessKey;
                            "secret_key=" +:+ secretKey;
                            "created=" +:+ sprintInt created])
                (params' ++ ["access_key=" +:+ accessKey;
                             "secret_key=" +:+ secretKey;
                             "created=" +:+ sprintInt created]))
    by (by rewrite Hperm).
Qed.

(** X8: the one request of [getAuthJSON] carries exactly the unsigned
    parameters with the access key, the secret key itself, in clear, and the
    created stamp, sorted as strings; then the signature of that sorted
    list; and after it the optionals, which the signature does not cover. *)
Theorem getAuthJSON_request url params optionals (w : World) :
  ∃ sorted,
    wire (getAuthJSON url params optionals w).2 =
      wire w ++ [POST url (sorted ++ ["sign=" +:+ signMd5 sorted] ++ optionals)] ∧
    Sorted strLe sorted ∧
    sorted ≡ₚ params ++ ["access_key=" +:+ AccessKey (option_ (self w));
                         "secret_key=" +:+ SecretKey (option_ (self w));
                         "created=" +:+ sprintInt (unixNow w)] ∧
    (∀ other, Sorted strLe other → other ≡ₚ sorted → other = sorted) ∧
    length sorted = (length params + 3)%nat ∧
    "secret_key=" +:+ SecretKey (option_ (self w)) ∈ sorted.
Proof.
  set (unsigned := params ++ ["access_key=" +:+ AccessKey (option_ (self w));
                              "secret_key=" +:+ SecretKey (option_ (self w));
                              "created=" +:+ sprintInt (unixNow w)]).
  assert (sortStrings unsigned ≡ₚ unsigned) as Hperm
    by apply merge_sort_Permutation.
  assert (Sorted strLe (sortStrings unsigned)) as Hsorted
    by apply Sorted_merge_sort, strLe_total.
  exists (sortStrings unsigned). split_and!.
  - rewrite getAuthJSON_run. unfold posted, signedParams. simpl.
    fold unsigned. by rewrite <- (assoc_L (++)).
  - done.
  - done.
  - intros other Hother Hsame.
    by apply (@Sorted_unique _ strLe strLe_trans strLe_antisym).
  - rewrite Hperm. unfold unsigned. rewrite length_app. simpl. lia.
  - rewrite Hperm. unfold unsigned. set_solver.
Qed.

End Signer.

(** X7, witness: the parameters of a market order in two orders. *)
Lemma signedParams_order_independent_witness :
  @signedParams (replying JNull) "ak" "sk" 7 ["coin_type=1"; "amount=2"; "method=buy_market"] =
  @signedParams (replying JNull) "ak" "sk" 7 ["method=buy_market"; "coin_type=1"; "amount=2"].
Proof.
  apply (@signedParams_order_independent (replying JNull) "ak" "sk" 7
           ["coin_type=1"; "amount=2"; "method=buy_market"]
           ["method=buy_market"; "coin_type=1"; "amount=2"]).
  symmetry.
  apply (Permutation_cons_append ["coin_type=1"; "amount=2"] "method=buy_market").
Defined.

(** ** What the operations leave alone *)

Section Frame.
Context `{Collaborators}.

(** What [getAuthJSON] sends and returns, by name. *)
Lemma getAuthJSON_reply url params optionals (w : World) :
  getAuthJSON url params optionals w =
  (Returned (authReply url params optionals w),
   posted url (signedFor w params ++ optionals) w).
Proof. by rewrite getAuthJSON_run. Qed.

(** Runs an operation on every path of its control flow. *)
Ltac run_operation :=
  run_monad;
  repeat match goal with
         | |- context [stockMap ?e !! ?s] => destruct (stockMap e !! s); simpl
         end;
  rewrite ?getAuthJSON_reply; unfold posted, httpGet; run_monad;
  repeat case_match; simpl; eauto 10.

(** X9: the operations other than GetRecords and SetMainStock never panic,
    never change the adapter (its tables, its configuration, its record
    windows), print nothing, and send at most one request each. *)
Theorem operations_keep_adapter (w : World) :
  keepsAdapter (GetAccount w) w ∧
  (∀ stockType price amount msgs,
     keepsAdapter (Buy stockType price amount msgs w) w) ∧
  (∀ stockType price amount msgs,
     keepsAdapter (Sell stockType price amount msgs w) w) ∧
  (∀ stockType id, keepsAdapter (GetOrder stockType id w) w) ∧
  (∀ order, keepsAdapter (CancelOrder order w) w) ∧
  (∀ stockType, keepsAdapter (GetOrders stockType w) w) ∧
  (∀ stockType, keepsAdapter (GetTrades stockType w) w) ∧
  (∀ stockType sizes, keepsAdapter (GetTicker stockType sizes w) w) ∧
  keepsAdapter (GetMainStock w) w ∧
  (∀ msgs, keepsAdapter (Log msgs w) w).
Proof.
  split_and!; intros; unfold keepsAdapter.
  - unfold GetAccount. run_operation.
  - unfold Buy, trade. run_operation.
  - unfold Sell, trade. run_operation.
  - unfold GetOrder. run_operation.
  - unfold CancelOrder. run_operation.
  - unfold GetOrders, listOrders. run_operation.
  - unfold GetTrades, listOrders. run_operation.
  - unfold GetTicker. run_operation.
  - unfold GetMainStock. run_operation.
  - unfold Log. run_operation.
Qed.

End Frame.

(** ** The main stock *)

(** X10: the main stock of an adapter is always a symbol it supports.
    NewHuobi supports "BTC" and "LTC" only; it keeps a configuration whose
    main stock is one of them and otherwise changes the main stock, and
    nothing else of the configuration, to "BTC".  SetMainStock on a supported
    symbol makes it the main stock and returns it; on any other symbol it
    changes nothing and returns the main stock in force; in both cases the
    three code tables, the host, the record windows, the rest of the
    configuration, the wire, the log and the console are as before. *)
Theorem main_stock_is_supported :
  (∀ opt,
     let e := NewHuobi opt in
     mainStockSupported e ∧
     (∀ stock, is_Some (stockMap e !! stock) ↔ stock = "BTC" ∨ stock = "LTC") ∧
     (is_Some (stockMap e !! MainStock opt) → option_ e = opt) ∧
     (stockMap e !! MainStock opt = None →
      option_ e = setMainStock "BTC" opt ∧ MainStock (option_ e) = "BTC")) ∧
  (∀ stock w,
     mainStockSupported (self w) →
     let res := SetMainStock stock w in
     mainStockSupported (self res.2) ∧
     res.1 = Returned (MainStock (option_ (self res.2))) ∧
     (is_Some (stockMap (self w) !! stock) →
      res.1 = Returned stock ∧
      option_ (self res.2) = setMainStock stock (option_ (self w))) ∧
     (stockMap (self w) !! stock = None → res.2 = w) ∧
     stockMap (self res.2) = stockMap (self w) ∧
     orderTypeMap (self res.2) = orderTypeMap (self w) ∧
     periodMap (self res.2) = periodMap (self w) ∧
     host (self res.2) = host (self w) ∧
     records (self res.2) = records (self w) ∧
     Type_ (option_ (self res.2)) = Type_ (option_ (self w)) ∧
     AccessKey (option_ (self res.2)) = AccessKey (option_ (self w)) ∧
     SecretKey (option_ (self res.2)) = SecretKey (option_ (self w)) ∧
     wire res.2 = wire w ∧ journal res.2 = journal w ∧
     console res.2 = console w).
Proof.
  split.
  - intros opt e.
    assert (stockMap e = {[ "BTC" := "1"; "LTC" := "2" ]}) as Hmap.
    { subst e. unfold NewHuobi. simpl. by destruct (_ !! MainStock opt). }
    assert (∀ stock, is_Some (stockMap e !! stock) ↔
                     stock = "BTC" ∨ stock = "LTC") as Hkeys.
    { intros stock. rewrite Hmap. split.
      - intros [c Hc]. apply lookup_insert_Some in Hc as [[<- _]|[_ Hc]];
          [by left|].
        apply lookup_singleton_Some in Hc as [<- _]. by right.
      - intros [-> | ->]; [by exists "1"|by exists "2"]. }
    assert (MainStock (option_ e) = MainStock opt ∧ option_ e = opt ∧
              is_Some (stockMap e !! MainStock opt) ∨
            option_ e = setMainStock "BTC" opt ∧
              stockMap e !! MainStock opt = None) as Hcases.
    { rewrite Hmap. subst e. unfold NewHuobi. simpl.
      destruct (_ !! MainStock opt) as [c|] eqn:E; simpl; eauto. }
    split_and!; [|done| |].
    + unfold mainStockSupported. apply Hkeys.
      destruct Hcases as [(-> & _ & Hin)|[-> _]]; [by apply Hkeys|by left].
    + intros Hin. destruct Hcases as [(_ & ? & _)|[_ Hnone]]; [done|].
      rewrite Hnone in Hin. by destruct Hin.
    + intros Hnone. destruct Hcases as [(_ & _ & [c Hin])|[-> _]];
        [congruence|done].
  - intros stock w Hmain. unfold mainStockSupported, SetMainStock in *.
    run_monad. destruct (stockMap (self w) !! stock) as [c|] eqn:E; simpl.
    + rewrite E. split_and!; (done || eauto).
    + split_and!; (done || eauto).
Qed.

(** ** Accounts, trades and cancellations *)

Section Responses.
Context `{Collaborators}.

(** X11: on a response whose status code is not positive GetAccount returns
    an Account that reads its eight figures off the response and logs
    nothing; the Stock and FrozenStock of the account are the BTC figures
    when the main stock is "BTC", the LTC figures when it is "LTC", and zero
    for any other main stock. *)
Theorem GetAccount_account (w : World) json :
  authReply (host (self w)) ["method=get_account_info"] ["market=cny"] w =
    Success json →
  codeOf json ≤ 0 →
  ∃ a, (GetAccount w).1 = Returned (Some a) ∧
       journal (GetAccount w).2 = journal w ∧
       Total a = Float64Must (Get "total" json) ∧
       Net a = Float64Must (Get "net_asset" json) ∧
       Balance a = Float64Must (Get "available_cny_display" json) ∧
       FrozenBalance a = Float64Must (Get "frozen_cny_display" json) ∧
       BTC a = Float64Must (Get "available_btc_display" json) ∧
       FrozenBTC a = Float64Must (Get "frozen_btc_display" json) ∧
       LTC a = Float64Must (Get "available_ltc_display" json) ∧
       FrozenLTC a = Float64Must (Get "frozen_ltc_display" json) ∧
       (MainStock (option_ (self w)) = "BTC" →
        Stock a = BTC a ∧ FrozenStock a = FrozenBTC a) ∧
       (MainStock (option_ (self w)) = "LTC" →
        Stock a = LTC a ∧ FrozenStock a = FrozenLTC a) ∧
       (MainStock (option_ (self w)) ≠ "BTC" →
        MainStock (option_ (self w)) ≠ "LTC" →
        Stock a = 0%float ∧ FrozenStock a = 0%float).
Proof.
  intros Hreply Hcode. unfold GetAccount. run_monad.
  rewrite getAuthJSON_reply, Hreply. simpl.
  destruct (Z.ltb_spec 0 (codeOf json)); [lia|].
  destruct (String.eqb_spec (MainStock (option_ (self w))) "BTC") as [Eb|Nb];
    [|destruct (String.eqb_spec (MainStock (option_ (self w))) "LTC") as [El|Nl]];
    simpl; eexists; (split; [reflexivity|]); simpl;
    split_and!; try reflexivity; intros; try done; congruence.
Qed.

(** What Buy and Sell send and return. *)
Lemma trade_outcome name kind limitMethod marketMethod stockType coin
    price amount msgs (w : World) :
  stockMap (self w) !! stockType = Some coin →
  let params := tradeParams coin limitMethod marketMethod price amount in
  let res := trade name kind limitMethod marketMethod stockType price amount msgs w in
  wire res.2 =
    wire w ++ [POST (host (self w)) (signedFor w params ++ ["market=cny"])] ∧
  match authReply (host (self w)) params ["market=cny"] w with
  | Success json =>
      if 0 <? codeOf json then failed "" res w
      else res.1 = Returned (sprintValue (Get "id" json)) ∧
           journal res.2 =
             journal w ++ [{| logKind := kind; logPrice := price;
                              logAmount := amount; logMsgs := msgs |}]
  | Failure _ => failed "" res w
  end.
Proof.
  intros Hs. simpl. unfold trade, tradeParams, stockCode, failed. run_monad.
  rewrite Hs. simpl.
  destruct (PrimFloat.ltb 0 price); simpl;
    rewrite getAuthJSON_reply; simpl;
    (destruct (authReply _ _ _ _) as [json|err]; simpl;
     [destruct (0 <? codeOf json); simpl|]); eauto.
Qed.

(** X12: on a supported symbol Buy and Sell send one signed request: a
    limit order carrying the price when the price is strictly positive, a
    market order without price otherwise (a zero, negative or NaN price).  A
    response whose code is not positive gives back the vendor's order id and
    logs the trade once, with its price and amount; a failed transport, an
    undecodable body or a positive code gives the empty id and logs an error,
    never a trade. *)
Theorem Buy_Sell_outcome stockType coin price amount msgs (w : World) :
  stockMap (self w) !! stockType = Some coin →
  let outcome kind params (res : Outcome string * World) :=
    wire res.2 =
      wire w ++ [POST (host (self w)) (signedFor w params ++ ["market=cny"])] ∧
    match authReply (host (self w)) params ["market=cny"] w with
    | Success json =>
        if 0 <? codeOf json then failed "" res w
        else res.1 = Returned (sprintValue (Get "id" json)) ∧
             journal res.2 =
               journal w ++ [{| logKind := kind; logPrice := price;
                                logAmount := amount; logMsgs := msgs |}]
    | Failure _ => failed "" res w
    end in
  outcome "buy" (tradeParams coin "method=buy" "method=buy_market" price amount)
    (Buy stockType price amount msgs w) ∧
  outcome "sell" (tradeParams coin "method=sell" "method=sell_market" price amount)
    (Sell stockType price amount msgs w).
Proof.
  intros Hs. simpl. split.
  - apply (trade_outcome "Buy" "buy" _ _ stockType coin price amount msgs w Hs).
  - apply (trade_outcome "Sell" "sell" _ _ stockType coin price amount msgs w Hs).
Qed.

(** X13: CancelOrder logs exactly one entry, and answers true exactly when
    the response decodes, its code is not positive and its result is the
    string "success": then the entry is a "cancel" entry, in every other
    case an "error" entry. *)
Theorem CancelOrder_outcome (order : Order) (w : World) :
  let params := ["method=cancel_order";
                 "coin_type=" +:+ stockCode (self w) (StockType order);
                 "id=" +:+ ID order] in
  let accepted :=
    ∃ json, authReply (host (self w)) params ["market=cny"] w = Success json ∧
            codeOf json ≤ 0 ∧ Get "result" json = JString "success" in
  let res := CancelOrder order w in
  ∃ entry, journal res.2 = journal w ++ [entry] ∧
    ((accepted ∧ res.1 = Returned true ∧ logKind entry = "cancel") ∨
     (¬ accepted ∧ res.1 = Returned false ∧ logKind entry = "error")).
Proof.
  simpl. unfold CancelOrder. run_monad. rewrite getAuthJSON_reply. simpl.
  destruct (authReply _ _ _ _) as [json|err] eqn:Hreply; simpl; cycle 1.
  { eexists. split; [reflexivity|]. right. split_and!; [|done..].
    by intros (? & [=] & _). }
  destruct (Z.ltb_spec 0 (codeOf json)) as [Hpos|Hok]; simpl.
  { eexists. split; [reflexivity|]. right. split_and!; [|done..].
    intros (j & [= <-] & ? & _). lia. }
  destruct (String.eqb_spec (MustString (Get "result" json) "") "success")
    as [Hyes|Hno]; simpl.
  - eexists. split; [reflexivity|]. left. split_and!; [|done..].
    exists json. split_and!; [done..|].
    by destruct (Get "result" json); simpl in Hyes; try done; subst.
  - eexists. split; [reflexivity|]. right. split_and!; [|done..].
    intros (j & [= <-] & _ & Hres). by rewrite Hres in Hno.
Qed.

End Responses.

(** ** Lists of orders and the ticker *)

(** A loop over the indices of an array visits its elements in order. *)
Lemma index_loop_map {A} (f : Json → A) (json : Json) :
  (λ i, f (GetIndex i json)) <$> seq 0 (length (MustArray json)) =
  f <$> MustArray json.
Proof.
  apply list_eq. intros i. rewrite !list_lookup_fmap.
  destruct (decide (i < length (MustArray json))%nat) as [Hlt|Hge].
  - rewrite lookup_seq_lt by done. simpl.
    destruct (lookup_lt_is_Some_2 (MustArray json) i Hlt) as [x Hx].
    by rewrite GetIndex_MustArray, Hx.
  - rewrite lookup_seq_ge by lia. by rewrite lookup_ge_None_2 by lia.
Qed.

(** The order types of an adapter built by NewHuobi: the vendor's "1" to "4"
    are 1, -1, 2 and -2, and any other string is 0. *)
Lemma orderTypeCode_NewHuobi (opt : Option) (vendor : string) :
  orderTypeCode (NewHuobi opt) vendor =
  if String.eqb vendor "1" then 1
  else if String.eqb vendor "2" then -1
  else if String.eqb vendor "3" then 2
  else if String.eqb vendor "4" then -2
  else 0.
Proof.
  assert (orderTypeMap (NewHuobi opt) =
          {[ "1" := 1; "2" := -1; "3" := 2; "4" := -2 ]}) as Hmap.
  { unfold NewHuobi. simpl. by destruct (_ !! MainStock opt). }
  unfold orderTypeCode. rewrite Hmap.
  destruct (String.eqb_spec vendor "1") as [->|N1]; [done|].
  rewrite lookup_insert_ne by done.
  destruct (String.eqb_spec vendor "2") as [->|N2]; [done|].
  rewrite lookup_insert_ne by done.
  destruct (String.eqb_spec vendor "3") as [->|N3]; [done|].
  rewrite lookup_insert_ne by done.
  destruct (String.eqb_spec vendor "4") as [->|N4]; [done|].
  by rewrite lookup_singleton_ne.
Qed.

Section Listings.
Context `{Collaborators}.

(** What GetOrders and GetTrades return on a response that passes the
    status test. *)
Lemma listOrders_outcome name method path stockType coin (w : World) json :
  stockMap (self w) !! stockType = Some coin →
  authReply (host (self w) +:+ path) [method; "coin_type=" +:+ coin] [] w =
    Success json →
  codeOf json ≤ 0 →
  (listOrders name method path stockType w).1 =
    Returned (orderOf (self w) stockType <$> MustArray json) ∧
  journal (listOrders name method path stockType w).2 = journal w.
Proof.
  intros Hs Hreply Hcode. unfold listOrders, stockCode. run_monad.
  rewrite Hs. simpl. rewrite getAuthJSON_reply, Hreply. simpl.
  destruct (Z.ltb_spec 0 (codeOf json)); [lia|]. simpl.
  by rewrite (index_loop_map (orderOf (self w) stockType)).
Qed.

(** X14: on a supported symbol and a response whose code is not positive,
    GetOrders and GetTrades return one Order per element of the response
    array, in the order of the array, each under the symbol asked for, and
    log nothing; a response that is an array always passes the status test,
    and one that is no array gives no order. *)
Theorem GetOrders_GetTrades_outcome stockType coin (w : World) :
  stockMap (self w) !! stockType = Some coin →
  (∀ l, codeOf (JArray l) = 0) ∧
  (∀ json,
     authReply (host (self w) +:+ "order_info.do")
       ["method=get_orders"; "coin_type=" +:+ coin] [] w = Success json →
     codeOf json ≤ 0 →
     (GetOrders stockType w).1 =
       Returned (orderOf (self w) stockType <$> MustArray json) ∧
     journal (GetOrders stockType w).2 = journal w) ∧
  (∀ json,
     authReply (host (self w) +:+ "order_history.do")
       ["method=get_new_deal_orders"; "coin_type=" +:+ coin] [] w = Success json →
     codeOf json ≤ 0 →
     (GetTrades stockType w).1 =
       Returned (orderOf (self w) stockType <$> MustArray json) ∧
     journal (GetTrades stockType w).2 = journal w) ∧
  (∀ json o, o ∈ orderOf (self w) stockType <$> MustArray json →
             StockType o = stockType).
Proof.
  intros Hs. split_and!.
  - done.
  - intros json. by apply listOrders_outcome.
  - intros json. by apply listOrders_outcome.
  - intros json o Ho. by apply list_elem_of_fmap in Ho as (j & -> & _).
Qed.

(** X15: the order type of an Order decoded by an adapter that NewHuobi
    built is 1, -1, 2 or -2 for the vendor's types "1", "2", "3" and "4",
    and 0, which is no order type, for a missing type or any other value. *)
Theorem orderOf_order_type (opt : Option) stockType (orderJSON : Json) :
  let o := orderOf (NewHuobi opt) stockType orderJSON in
  (Get "type" orderJSON = JString "1" → OrderType o = 1) ∧
  (Get "type" orderJSON = JString "2" → OrderType o = -1) ∧
  (Get "type" orderJSON = JString "3" → OrderType o = 2) ∧
  (Get "type" orderJSON = JString "4" → OrderType o = -2) ∧
  ((∀ v, v ∈ ["1"; "2"; "3"; "4"] → Get "type" orderJSON ≠ JString v) →
   OrderType o = 0).
Proof.
  simpl. rewrite orderTypeCode_NewHuobi.
  split_and!; try (by intros ->).
  intros Hother.
  destruct (Get "type" orderJSON) as [| | |v| |] eqn:E; simpl; try done.
  destruct (String.eqb_spec v "1") as [->|_]; [by destruct (Hother "1"); set_solver|].
  destruct (String.eqb_spec v "2") as [->|_]; [by destruct (Hother "2"); set_solver|].
  destruct (String.eqb_spec v "3") as [->|_]; [by destruct (Hother "3"); set_solver|].
  destruct (String.eqb_spec v "4") as [->|_]; [by destruct (Hother "4"); set_solver|].
  done.
Qed.

(** X16: on a supported symbol and a response that decodes, GetTicker
    returns a ticker exactly when both the bids and the asks of the response
    are non-empty arrays: then the ticker has one level per element of each
    side, its Buy and Sell are the prices of the first bid and the first ask,
    its Mid is their mean, and nothing is logged; when a side is missing or
    empty it returns nothing and logs an error. *)
Theorem GetTicker_outcome stockType sizes (w : World) body json :
  is_Some (stockMap (self w) !! stockType) →
  get (tickerURL stockType (tickerSize sizes)) = Success body →
  NewJson body = Success json →
  let res := GetTicker stockType sizes w in
  let bids := Get "bids" json in
  let asks := Get "asks" json in
  (MustArray bids ≠ [] → MustArray asks ≠ [] →
   ∃ t, res.1 = Returned (Some t) ∧ journal res.2 = journal w ∧
        Ticker_Bids t = marketOrders bids ∧ Ticker_Asks t = marketOrders asks ∧
        length (Ticker_Bids t) = length (MustArray bids) ∧
        length (Ticker_Asks t) = length (MustArray asks) ∧
        Ticker_Buy t = MustFloat64 (GetIndex 0 (GetIndex 0 bids)) ∧
        Ticker_Sell t = MustFloat64 (GetIndex 0 (GetIndex 0 asks)) ∧
        Ticker_Mid t = ((Ticker_Buy t + Ticker_Sell t) / 2)%float) ∧
  (MustArray bids = [] ∨ MustArray asks = [] → failed None res w).
Proof.
  intros [c Hs] Hget Hjson. simpl.
  assert (∀ j, marketOrders j =
               (λ d, {| MarketOrder_Price := MustFloat64 (GetIndex 0 d);
                        MarketOrder_Amount := MustFloat64 (GetIndex 1 d) |})
                 <$> MustArray j) as Hside.
  { intros j. unfold marketOrders.
    apply (index_loop_map
             (λ d, {| MarketOrder_Price := MustFloat64 (GetIndex 0 d);
                      MarketOrder_Amount := MustFloat64 (GetIndex 1 d) |})). }
  unfold GetTicker, httpGet, failed. run_monad.
  rewrite Hs. simpl. rewrite Hget. simpl. rewrite Hjson. simpl.
  rewrite !Hside. rewrite !(GetIndex_MustArray (Get _ json)).
  destruct (MustArray (Get "bids" json)) as [|b bs],
           (MustArray (Get "asks" json)) as [|a as_]; simpl; split;
    try (intros; done); try (intros _; eauto; fail).
  - intros _ _. eexists. split_and!; try reflexivity.
    + simpl. by rewrite length_fmap.
    + simpl. by rewrite length_fmap.
  - by intros [|].
Qed.

End Listings.

(** ** The timestamp of a bar *)

Lemma length_append_string (s t : string) :
  String.length (s +:+ t) = (String.length s + String.length t)%nat.
Proof. induction s as [|c s IH]; simpl; [done|]. by rewrite IH. Qed.

Lemma substring_append (s t : string) :
  substring 0 (String.length s) (s +:+ t) = s.
Proof.
  induction s as [|c s IH]; simpl; [by destruct t|]. by rewrite IH.
Qed.

(** X17: reading the timestamp of a fetched bar panics exactly when the
    first element of the bar is a string shorter than twelve bytes; of a
    longer string only the first twelve bytes are read, whatever follows
    them; and a bar whose first element is no string is read as the stamp
    "197001010000". *)
Theorem recordTime_outcome (recordJSON : Json) :
  (recordTime recordJSON = None ↔
   ∃ s, GetIndex 0 recordJSON = JString s ∧ (String.length s < 12)%nat) ∧
  (∀ s tail, String.length s = 12%nat →
             GetIndex 0 recordJSON = JString (s +:+ tail) →
             recordTime recordJSON = Some (Int64Must s)) ∧
  ((∀ s, GetIndex 0 recordJSON ≠ JString s) →
   recordTime recordJSON = Some (Int64Must "197001010000")).
Proof.
  unfold recordTime. split_and!.
  - split.
    + case_decide as Hlen; [done|]. intros _.
      destruct (GetIndex 0 recordJSON) as [| | |s| |] eqn:E; simpl in Hlen;
        try (exfalso; apply Hlen; simpl; lia).
      exists s. split; [done|lia].
    + intros (s & -> & Hlen). simpl. case_decide; [lia|done].
  - intros s tail Hlen ->. simpl.
    case_decide as Hge; [|rewrite length_append_string in Hge; lia].
    by rewrite <- Hlen, substring_append.
  - intros Hnot.
    destruct (GetIndex 0 recordJSON) as [| | |s| |] eqn:E; try done.
    by destruct (Hnot s).
Qed.

(** ** The further properties on the scenarios *)

(** X11, witness: an adapter whose main stock is LTC reads its Stock off the
    LTC figures. *)
Lemma GetAccount_account_witness :
  ∃ a, (@GetAccount (replying ltcReply) worldLTC).1 = Returned (Some a) ∧
       Stock a = LTC a ∧ FrozenStock a = FrozenLTC a ∧
       Stock a = 5%float ∧ FrozenStock a = 1%float.
Proof.
  assert (codeOf ltcReply ≤ 0) as Hcode by (vm_compute; discriminate).
  destruct (@GetAccount_account (replying ltcReply) worldLTC ltcReply
              eq_refl Hcode)
    as (a & Hret & _ & _ & _ & _ & _ & _ & _ & Hl & Hfl & _ & Hltc & _).
  exists a. destruct (Hltc eq_refl) as [Hs Hf].
  split_and!; [exact Hret|exact Hs|exact Hf| |].
  - rewrite Hs, Hl. reflexivity.
  - rewrite Hf, Hfl. reflexivity.
Defined.

(** X12, witness: a Buy whose price is NaN goes out as a market order. *)
Lemma Buy_Sell_outcome_witness :
  wire (@Buy (replying idReply) "BTC" nan 2%float [] world0).2 =
  [POST "https://api.huobi.com/apiv3"
     (@signedFor (replying idReply) world0
        ["coin_type=1"; "amount="; "method=buy_market"] ++ ["market=cny"])] ∧
  (@Buy (replying idReply) "BTC" nan 2%float [] world0).1 = Returned "42".
Proof.
  pose proof (@Buy_Sell_outcome (replying idReply) "BTC" "1" nan 2%float []
                world0 eq_refl) as [[Hwire Hout] _].
  split; [exact Hwire|]. exact (proj1 Hout).
Defined.

(** X14, witness: a list of two orders. *)
Lemma GetOrders_GetTrades_outcome_witness :
  (@GetOrders (replying ordersReply) "BTC" world0).1 =
  Returned (@orderOf (replying ordersReply) (self world0) "BTC"
              <$> MustArray ordersReply).
Proof.
  assert (codeOf ordersReply ≤ 0) as Hcode by (vm_compute; discriminate).
  exact (proj1 (proj1 (proj2 (@GetOrders_GetTrades_outcome (replying ordersReply)
                                "BTC" "1" world0 eq_refl))
                  ordersReply eq_refl Hcode)).
Defined.

(** X16, witness: a book of one bid at 99 and one ask at 101. *)
Lemma GetTicker_outcome_witness :
  ∃ t, (@GetTicker (replying depthReply) "BTC" [] world0).1 = Returned (Some t) ∧
       Ticker_Buy t = 99%float ∧ Ticker_Sell t = 101%float ∧
       Ticker_Mid t = 100%float.
Proof.
  assert (MustArray (Get "bids" depthReply) ≠ []) as Hb
    by (vm_compute; discriminate).
  assert (MustArray (Get "asks" depthReply) ≠ []) as Ha
    by (vm_compute; discriminate).
  destruct (proj1 (@GetTicker_outcome (replying depthReply) "BTC" [] world0 ""
                     depthReply (ex_intro _ "1" eq_refl) eq_refl eq_refl) Hb Ha)
    as (t & Hret & _ & _ & _ & _ & _ & Hbuy & Hsell & Hmid).
  exists t. split_and!; [exact Hret| | |].
  - rewrite Hbuy. reflexivity.
  - rewrite Hsell. reflexivity.
  - rewrite Hmid, Hbuy, Hsell. reflexivity.
Defined.
